(** * sslchecker: a shallow embedding of [src/sslchecker.py]

    The program asks every host of a list for its TLS certificate, reads the
    expiry date and the issuer organisation out of it, and classifies the
    host by the number of days the certificate has left.

    The embedding follows the Python text:
    - naive [datetime] values and [timedelta] with the normalisation of the
      [datetime] module, over [Z];
    - exceptions as values, and code that raises or touches the network or
      the clock in a state-and-exception monad [Py] over an abstract world;
    - the sockets, the TLS handshake, [strptime] and the clock are the
      operations of a [Runtime], which the program is parametrised by;
    - the local dictionary [issuer] as a [gmap string string]. *)

From Stdlib Require Import ZArith Lia Ascii.
From stdpp Require Import base strings gmap list pretty.

Local Open Scope Z_scope.

(** ** Dates: the part of Python's [datetime] module the program uses *)

Module Datetime.

(** A naive [datetime.datetime] (no [tzinfo]). *)
Record datetime := mk_datetime {
  year : Z; month : Z; day : Z;
  hour : Z; minute : Z; second : Z; microsecond : Z
}.

(** A [datetime.timedelta], always held in normal form. *)
Record timedelta := mk_timedelta {
  days : Z; seconds : Z; microseconds : Z
}.

(** [timedelta(days, seconds, microseconds)] on integers: the carries
    are Python's floor [divmod], which is [Z.div] and [Z.modulo] for a
    positive divisor. *)
Definition new_timedelta (d s us : Z) : timedelta :=
  let s1 := s + us / 1000000 in
  {| days := d + s1 / 86400;
     seconds := s1 mod 86400;
     microseconds := us mod 1000000 |}.

Definition _is_leap (y : Z) : bool :=
  (y mod 4 =? 0) && (negb (y mod 100 =? 0) || (y mod 400 =? 0)).

Definition _days_before_year (y : Z) : Z :=
  let y := y - 1 in y * 365 + y / 4 - y / 100 + y / 400.

(** [_DAYS_BEFORE_MONTH[month]]. *)
Definition _DAYS_BEFORE_MONTH (m : Z) : Z :=
  match m with
  | 1 => 0 | 2 => 31 | 3 => 59 | 4 => 90 | 5 => 120 | 6 => 151
  | 7 => 181 | 8 => 212 | 9 => 243 | 10 => 273 | 11 => 304 | 12 => 334
  | _ => -1
  end.

Definition _days_before_month (y m : Z) : Z :=
  _DAYS_BEFORE_MONTH m + (if (2 <? m) && _is_leap y then 1 else 0).

Definition _ymd2ord (y m d : Z) : Z :=
  _days_before_year y + _days_before_month y m + d.

Definition toordinal (t : datetime) : Z :=
  _ymd2ord (year t) (month t) (day t).

(** [datetime.__sub__] on two naive values. *)
Definition sub (a b : datetime) : timedelta :=
  let days1 := toordinal a in
  let days2 := toordinal b in
  let secs1 := second a + minute a * 60 + hour a * 3600 in
  let secs2 := second b + minute b * 60 + hour b * 3600 in
  new_timedelta (days1 - days2) (secs1 - secs2)
                (microsecond a - microsecond b).

(** The position of a naive datetime on the time line, in microseconds
    since the start of day 0 of the proleptic Gregorian calendar. Only
    the statements use it; the program never computes it. *)
Definition instant (t : datetime) : Z :=
  ((toordinal t * 86400 + (second t + minute t * 60 + hour t * 3600))
   * 1000000) + microsecond t.

Definition us_per_day : Z := 86400 * 1000000.
Definition us_per_hour : Z := 3600 * 1000000.

End Datetime.

Import Datetime.

(** ** Exceptions and the monad of Python code *)

(** An instance of a subclass of [Exception]: the class name and what
    [str(e)] renders. Interrupts of the process ([KeyboardInterrupt],
    [SystemExit]), which are not [Exception]s and which no call of the
    program raises by itself, have no value here. *)
Record exception := Exception { exc_class : string; exc_str : string }.

Definition str (e : exception) : string := exc_str e.

Inductive result (A : Type) : Type :=
| Return (a : A)
| Raise (e : exception).
Arguments Return {A} a.
Arguments Raise {A} e.

(** A computation that may read and change the world [W] and ends by
    returning a value or raising. *)
Definition Py (W A : Type) : Type := W → result A * W.

Definition py_ret {W A} (a : A) : Py W A := λ w, (Return a, w).

Definition py_raise {W A} (e : exception) : Py W A := λ w, (Raise e, w).

Definition py_bind {W A B} (f : A → Py W B) (m : Py W A) : Py W B :=
  λ w, match m w with
       | (Return a, w1) => f a w1
       | (Raise e, w1) => (Raise e, w1)
       end.

#[global] Instance Py_ret W : MRet (Py W) := @py_ret W.
#[global] Instance Py_bind W : MBind (Py W) := @py_bind W.

(** A pure step that may raise. *)
Definition lift_result {W A} (r : result A) : Py W A := λ w, (r, w).

(** A step that reads or changes the world and cannot raise. *)
Definition lift_total {W A} (f : W → A * W) : Py W A :=
  λ w, let '(a, w1) := f w in (Return a, w1).

(** [try: body  except Exception as e: handler(e)]. *)
Definition try_except {W A} (body : Py W A) (handler : exception → Py W A)
  : Py W A :=
  λ w, match body w with
       | (Return a, w1) => (Return a, w1)
       | (Raise e, w1) => handler e w1
       end.

(** [with enter as r: body(r)] for a context manager whose [__exit__]
    releases the resource and lets an exception of the body pass. *)
Definition with_as {W R A} (enter : Py W R) (exit : R → W → W)
    (body : R → Py W A) : Py W A :=
  λ w, match enter w with
       | (Return r, w1) => let '(x, w2) := body r w1 in (x, exit r w2)
       | (Raise e, w1) => (Raise e, w1)
       end.

(** ** The certificate dictionary of [SSLSocket.getpeercert()] *)

(** One relative distinguished name: a tuple of (attribute, value) pairs.
    A name is a tuple of these. *)
Definition rdn : Type := list (string * string).

(** The two keys the program reads; [None] is a key the dictionary lacks. *)
Record cert := mk_cert {
  cert_notAfter : option string;
  cert_issuer : option (list rdn)
}.

Definition KeyError (key : string) : exception :=
  Exception "KeyError" ("'" +:+ key +:+ "'").

Definition IndexError_tuple : exception :=
  Exception "IndexError" "tuple index out of range".

(** [d[key]] *)
Definition getitem {A} (field : option A) (key : string) : result A :=
  match field with
  | Some v => Return v
  | None => Raise (KeyError key)
  end.

(** [x[0] for x in name]: the first pair of every RDN. *)
Fixpoint first_items (name : list rdn) : result (list (string * string)) :=
  match name with
  | [] => Return []
  | x :: rest =>
      match x with
      | [] => Raise IndexError_tuple
      | kv :: _ =>
          match first_items rest with
          | Return kvs => Return (kv :: kvs)
          | Raise e => Raise e
          end
      end
  end.

(** [dict(pairs)]: the pairs are stored in order, a later pair replaces an
    earlier one with the same key. *)
Definition dict (pairs : list (string * string)) : gmap string string :=
  foldl (λ d kv, <[kv.1 := kv.2]> d) ∅ pairs.

(** [d.get(key, default)] *)
Definition dict_get (d : gmap string string) (key dflt : string) : string :=
  default dflt (d !! key).

(** ** The runtime the program runs on *)

Class Runtime := {
  World : Type;
  SSLContext : Type;
  socket : Type;
  SSLSocket : Type;
  (** [ssl.create_default_context()] *)
  create_default_context : Py World SSLContext;
  (** [socket.create_connection((host, port))] *)
  create_connection : string * Z → Py World socket;
  (** [context.wrap_socket(sock, server_hostname=host)]: the handshake *)
  wrap_socket : SSLContext → socket → string → Py World SSLSocket;
  (** [ssock.getpeercert()] *)
  getpeercert : SSLSocket → Py World cert;
  (** [__exit__] of the two sockets *)
  socket_exit : socket → World → World;
  sslsocket_exit : SSLSocket → World → World;
  (** [datetime.strptime(date_string, format)] *)
  strptime : string → string → result datetime;
  (** [datetime.now()] *)
  datetime_now : World → datetime * World
}.

(** ** The program *)

(** A row of the result: [(host, days_left, status, issuer_name)]. *)
Record row := Row {
  r_host : string;
  r_days_left : option Z;
  r_status : string;
  r_issuer_name : string
}.

Section Program.

Context {rt : Runtime}.

Definition get_cert_info (host : string) : Py World (datetime * string) :=
  context ← create_default_context;
  with_as (create_connection (host, 443)) socket_exit (λ sock,
    with_as (wrap_socket context sock host) sslsocket_exit (λ ssock,
      cert ← getpeercert ssock;
      expiry_str ← lift_result (getitem (cert_notAfter cert) "notAfter");
      expiry ← lift_result (strptime expiry_str "%b %d %H:%M:%S %Y %Z");
      name ← lift_result (getitem (cert_issuer cert) "issuer");
      pairs ← lift_result (first_items name);
      let issuer := dict pairs in
      let issuer_name :=
        dict_get issuer "organizationName" "Unknown Issuer" in
      mret (expiry, issuer_name))).

(** The status of lines 28 to 33. *)
Definition status_of (days_left : Z) : string :=
  if days_left <? 0 then "Expired"
  else if days_left <? 30 then "Expiring Soon"
  else "Valid".

(** One turn of the loop of [check_expiry]: the [try] statement, which
    ends with [results] one row longer on either path. *)
Definition check_host (results : list row) (host : string)
  : Py World (list row) :=
  try_except
    ('(expiry, issuer_name) ← get_cert_info host;
     now ← lift_total datetime_now;
     let days_left := days (sub expiry now) in
     let status := status_of days_left in
     mret (results ++ [Row host (Some days_left) status issuer_name]))
    (λ e,
     mret (results ++
           [Row host None ("Error: " +:+ str e) "Unknown Issuer"])).

Fixpoint for_hosts (hosts : list string) (results : list row)
  : Py World (list row) :=
  match hosts with
  | [] => mret results
  | host :: rest =>
      results' ← check_host results host;
      for_hosts rest results'
  end.

Definition check_expiry (hosts : list string) : Py World (list row) :=
  for_hosts hosts [].

(** The loop of [main] (lines 76 to 80) without the progress bar:
    [results.extend(check_expiry([host]))] for every host. *)
Fixpoint main_loop (hosts : list string) (results : list row)
  : Py World (list row) :=
  match hosts with
  | [] => mret results
  | host :: rest =>
      rows ← check_expiry [host];
      main_loop rest (results ++ rows)
  end.

Definition main_results (hosts : list string) : Py World (list row) :=
  main_loop hosts [].

End Program.


(** ** Properties of a run that the statements speak of *)

Section Notions.

Context {rt : Runtime}.

(** The fetcher is fixed: what [get_cert_info] returns or raises for a
    host does not depend on the state of the world. *)
Definition fetcher_fixed : Prop :=
  ∀ host w1 w2, (get_cert_info host w1).1 = (get_cert_info host w2).1.

(** The clock is fixed: [datetime.now()] reads the same value always. *)
Definition clock_fixed : Prop :=
  ∀ w1 w2, (datetime_now w1).1 = (datetime_now w2).1.

(** The connection and the handshake with [host] succeed from [w], the
    certificate has a [notAfter] text, and [strptime] raises [e] on it;
    [w'] is the world after the two sockets are closed. *)
Definition notAfter_unparsable (host : string) (w : World) (e : exception)
    (w' : World) : Prop :=
  ∃ context w1 sock w2 ssock w3 c w4 expiry_str,
    create_default_context w = (Return context, w1) ∧
    create_connection (host, 443) w1 = (Return sock, w2) ∧
    wrap_socket context sock host w2 = (Return ssock, w3) ∧
    getpeercert ssock w3 = (Return c, w4) ∧
    cert_notAfter c = Some expiry_str ∧
    strptime expiry_str "%b %d %H:%M:%S %Y %Z" = Raise e ∧
    w' = socket_exit sock (sslsocket_exit ssock w4).

End Notions.

(** A status that reports an error: the text starts with ["Error: "]. *)
Definition is_error_status (s : string) : bool := String.prefix "Error: " s.

(** The three statuses of a certificate that was read. *)
Definition is_cert_status (s : string) : bool :=
  bool_decide (s ∈ ["Expired"; "Expiring Soon"; "Valid"]).

(** A naive datetime [reading] is what a clock set [utcoffset]
    microseconds ahead of UTC shows at the instant [t]; instants are
    counted in microseconds on the UTC time line, from the start of day
    0 of the calendar. The [notAfter] text of a certificate is a reading
    at offset 0 (it is written in GMT); what [datetime.now()] returns is
    a reading at the offset of the local zone of the machine. *)
Definition reads_at (utcoffset : Z) (reading : datetime) (t : Z) : Prop :=
  instant reading = t + utcoffset.

(** The day count in the words of the specification: the distance from
    the current instant to the expiry instant in whole days, rounded
    toward zero. The program does not compute this. *)
Definition truncated_days (t_expiry t_now : Z) : Z :=
  Z.quot (t_expiry - t_now) us_per_day.

(** A name has the attribute [key] when some pair of some RDN carries it. *)
Definition name_has (name : list rdn) (key : string) : Prop :=
  ∃ x v, x ∈ name ∧ (key, v) ∈ x.

(** ** A test double of the runtime

    The network is a table from host to what the peer does, [strptime] a
    table from text to date, and the world counts the readings of the
    clock, so that the clock may advance from one reading to the next. *)

Inductive peer : Type :=
| Unreachable (e : exception)
| Rejects (e : exception)
| Presents (c : cert).

Definition mock_runtime (net : string → peer)
    (parse : string → string → result datetime)
    (clock : nat → datetime) : Runtime :=
  {| World := nat;
     SSLContext := unit;
     socket := string;
     SSLSocket := cert;
     create_default_context := py_ret ();
     create_connection := λ address,
       match net address.1 with
       | Unreachable e => py_raise e
       | _ => py_ret address.1
       end;
     wrap_socket := λ _ sock _,
       match net sock with
       | Presents c => py_ret c
       | Rejects e | Unreachable e => py_raise e
       end;
     getpeercert := λ ssock, py_ret ssock;
     socket_exit := λ _ w, w;
     sslsocket_exit := λ _ w, w;
     strptime := parse;
     datetime_now := λ w, (clock w, S w) |}.

Definition ValueError_format (s fmt : string) : exception :=
  Exception "ValueError"
    ("time data '" +:+ s +:+ "' does not match format '" +:+ fmt +:+ "'").

Definition ConnectionRefusedError : exception :=
  Exception "ConnectionRefusedError" "[Errno 111] Connection refused".

(** The dates of the test double, as [strptime] reads them. *)
Definition demo_dates : list (string * datetime) :=
  [ ("Feb  9 12:00:00 2027 GMT", mk_datetime 2027 2 9 12 0 0 0);
    ("Jan 15 12:00:00 2026 GMT", mk_datetime 2026 1 15 12 0 0 0);
    ("Dec 31 12:00:00 2025 GMT", mk_datetime 2025 12 31 12 0 0 0);
    ("Feb  4 12:00:00 2026 GMT", mk_datetime 2026 2 4 12 0 0 0);
    ("Feb  4 11:00:00 2026 GMT", mk_datetime 2026 2 4 11 0 0 0);
    ("Jan  5 12:00:00 2026 GMT", mk_datetime 2026 1 5 12 0 0 0);
    ("Jan  5 09:00:00 2026 GMT", mk_datetime 2026 1 5 9 0 0 0) ].

Fixpoint assoc (s : string) (table : list (string * datetime))
  : option datetime :=
  match table with
  | [] => None
  | (k, v) :: rest => if String.eqb s k then Some v else assoc s rest
  end.

Definition demo_parse (s fmt : string) : result datetime :=
  match assoc s demo_dates with
  | Some t => Return t
  | None => Raise (ValueError_format s fmt)
  end.

Definition ExampleCA : list rdn :=
  [ [("countryName", "US")];
    [("organizationName", "ExampleCA")];
    [("commonName", "Example Root")] ].

(** An issuer whose organisation sits second in a multi-valued RDN. *)
Definition ExampleCA_multi : list rdn :=
  [ [("countryName", "US")];
    [("commonName", "Example Root"); ("organizationName", "ExampleCA")] ].

Definition NoOrgCA : list rdn :=
  [ [("countryName", "US")]; [("commonName", "Example Root")] ].

Definition demo_net (host : string) : peer :=
  if String.eqb host "valid-example.test" then
    Presents (mk_cert (Some "Feb  9 12:00:00 2027 GMT") (Some ExampleCA))
  else if String.eqb host "soon-example.test" then
    Presents (mk_cert (Some "Jan 15 12:00:00 2026 GMT") (Some ExampleCA))
  else if String.eqb host "dead-example.test" then
    Presents (mk_cert (Some "Dec 31 12:00:00 2025 GMT") (Some ExampleCA))
  else if String.eqb host "thirty-days.test" then
    Presents (mk_cert (Some "Feb  4 12:00:00 2026 GMT") (Some ExampleCA))
  else if String.eqb host "almost-thirty.test" then
    Presents (mk_cert (Some "Feb  4 11:00:00 2026 GMT") (Some ExampleCA))
  else if String.eqb host "just-now.test" then
    Presents (mk_cert (Some "Jan  5 12:00:00 2026 GMT") (Some ExampleCA))
  else if String.eqb host "hours-ago.test" then
    Presents (mk_cert (Some "Jan  5 09:00:00 2026 GMT") (Some ExampleCA))
  else if String.eqb host "garbled.test" then
    Presents (mk_cert (Some "05/01/2026") (Some ExampleCA))
  else if String.eqb host "multi-rdn.test" then
    Presents (mk_cert (Some "Feb  9 12:00:00 2027 GMT") (Some ExampleCA_multi))
  else if String.eqb host "no-org.test" then
    Presents (mk_cert (Some "Feb  9 12:00:00 2027 GMT") (Some NoOrgCA))
  else if String.eqb host "self-signed.test" then
    Rejects (Exception "SSLCertVerificationError"
               "[SSL: CERTIFICATE_VERIFY_FAILED] certificate verify failed")
  else Unreachable ConnectionRefusedError.

(** Noon of 5 January 2026. *)
Definition demo_noon : datetime := mk_datetime 2026 1 5 12 0 0 0.

(** The clock stands still at noon. *)
Definition demo_runtime : Runtime :=
  mock_runtime demo_net demo_parse (λ _, demo_noon).

(** The clock reads noon first and one second past noon from then on. *)
Definition ticking_runtime : Runtime :=
  mock_runtime demo_net demo_parse
    (λ n, match n with
          | O => demo_noon
          | _ => mk_datetime 2026 1 5 12 0 1 0
          end).

(** ** The page: from the text area to the alerts

    What [main] does once the button is pressed, without the widgets
    that only draw (progress bar, table, chart): the text is split into
    hosts, the hosts are checked one at a time, and every row is
    announced by one alert. *)

(** [s.split(sep)] for a separator of one character: the pieces between
    the occurrences of [sep], empty pieces included. *)
Fixpoint split (sep : ascii) (s : string) : list string :=
  match s with
  | EmptyString => [EmptyString]
  | String c rest =>
      if Ascii.eqb c sep then EmptyString :: split sep rest
      else match split sep rest with
           | piece :: pieces => String c piece :: pieces
           | [] => [String c EmptyString]
           end
  end.

(** The number of occurrences of a character in a text. *)
Fixpoint count_char (c : ascii) (s : string) : nat :=
  match s with
  | EmptyString => O
  | String c' rest =>
      ((if Ascii.eqb c' c then 1 else 0) + count_char c rest)%nat
  end.

Definition newline : ascii := "010"%char.

(** The three kinds of alert box, with the text shown. *)
Inductive alert : Type :=
| st_error (body : string)
| st_warning (body : string)
| st_success (body : string).

Definition TypeError_abs : exception :=
  Exception "TypeError" "bad operand type for abs(): 'NoneType'".

(** [abs(days_left)] *)
Definition py_abs (days_left : option Z) : result Z :=
  match days_left with
  | Some d => Return (Z.abs d)
  | None => Raise TypeError_abs
  end.

(** [{days_left}] inside an f-string: the decimal digits of an [int],
    the text [None] for [None]. *)
Definition format_days (days_left : option Z) : string :=
  match days_left with
  | Some d => pretty d
  | None => "None"
  end.

(** The body of the loop of lines 105 to 111 for one row. *)
Definition alert_of (r : row) : result alert :=
  let host := r_host r in
  let days_left := r_days_left r in
  let status := r_status r in
  let issuer := r_issuer_name r in
  if String.eqb status "Expired" then
    match py_abs days_left with
    | Return n =>
        Return (st_error ("❌ " +:+ host +:+ " has expired " +:+ pretty n
                          +:+ " days ago. Issuer: " +:+ issuer))
    | Raise e => Raise e
    end
  else if String.eqb status "Expiring Soon" then
    Return (st_warning ("⚠️ " +:+ host +:+ " is expiring in "
                        +:+ format_days days_left
                        +:+ " days. Issuer: " +:+ issuer))
  else
    Return (st_success ("✅ " +:+ host +:+ " is valid for "
                        +:+ format_days days_left
                        +:+ " more days. Issuer: " +:+ issuer)).

(** The loop of lines 105 to 111: the alerts shown, and the exception
    that stopped the loop if one was raised. *)
Fixpoint show_alerts (results : list row) : list alert * option exception :=
  match results with
  | [] => ([], None)
  | r :: rest =>
      match alert_of r with
      | Return a => let '(shown, e) := show_alerts rest in (a :: shown, e)
      | Raise e => ([], Some e)
      end
  end.

Section Page.

Context {rt : Runtime}.

(** [str.strip()]: which characters count as whitespace is a table of
    the Python runtime. *)
Variable strip : string → string.

(** Line 74. *)
Definition hosts_of (host_input : string) : list string :=
  split newline (strip host_input).

(** Lines 74 to 111: the rows of the table and the outcome of the loop
    of alerts. *)
Definition on_click (host_input : string)
  : Py World (list row * (list alert * option exception)) :=
  let hosts := hosts_of host_input in
  results ← main_results hosts;
  mret (results, show_alerts results).

End Page.

Section MoreNotions.

Context {rt : Runtime}.

(** The connection and the handshake with [host] succeed from [w] and
    [getpeercert] returns [c]; [w'] is the world after the two sockets
    are closed. *)
Definition peer_cert (host : string) (w : World) (c : cert) (w' : World)
  : Prop :=
  ∃ context w1 sock w2 ssock w3 w4,
    create_default_context w = (Return context, w1) ∧
    create_connection (host, 443) w1 = (Return sock, w2) ∧
    wrap_socket context sock host w2 = (Return ssock, w3) ∧
    getpeercert ssock w3 = (Return c, w4) ∧
    w' = socket_exit sock (sslsocket_exit ssock w4).

End MoreNotions.

(** The first pair of an RDN does not carry [key]. *)
Definition first_key_is_not (key : string) (x : rdn) : Prop :=
  ∃ kv more, x = kv :: more ∧ kv.1 ≠ key.

(** A test double of [str.strip()] for ASCII text: the whitespace of
    ASCII is the codes 9 to 13 and 28 to 32. *)
Definition ascii_isspace (c : ascii) : bool :=
  let n := nat_of_ascii c in
  ((9 <=? n)%nat && (n <=? 13)%nat) || ((28 <=? n)%nat && (n <=? 32)%nat).

Fixpoint ascii_lstrip (s : string) : string :=
  match s with
  | EmptyString => EmptyString
  | String c rest => if ascii_isspace c then ascii_lstrip rest else s
  end.

Definition ascii_strip (s : string) : string :=
  String.rev (ascii_lstrip (String.rev (ascii_lstrip s))).

(** What the alert of a row of [check_expiry] is, read by the day count
    of the row: a failed host has none. *)
Definition announces (r : row) (a : alert) : Prop :=
  match r_days_left r with
  | Some d =>
      a = if d <? 0 then
            st_error ("❌ " +:+ r_host r +:+ " has expired " +:+ pretty (- d)
                      +:+ " days ago. Issuer: " +:+ r_issuer_name r)
          else if d <? 30 then
            st_warning ("⚠️ " +:+ r_host r +:+ " is expiring in "
                        +:+ pretty d +:+ " days. Issuer: "
                        +:+ r_issuer_name r)
          else
            st_success ("✅ " +:+ r_host r +:+ " is valid for "
                        +:+ pretty d +:+ " more days. Issuer: "
                        +:+ r_issuer_name r)
  | None =>
      a = st_success ("✅ " +:+ r_host r
                      +:+ " is valid for None more days. Issuer: Unknown Issuer")
  end.

(** A test double whose peers present a certificate dictionary without
    the keys the program reads, or with a date and no issuer. *)
Definition bare_net (host : string) : peer :=
  if String.eqb host "no-issuer.test" then
    Presents (mk_cert (Some "Feb  9 12:00:00 2027 GMT") None)
  else Presents (mk_cert None None).

Definition bare_runtime : Runtime :=
  mock_runtime bare_net demo_parse (λ _, demo_noon).

(** The number of rows that carry a day count. *)
Definition count_fetched (rows : list row) : nat :=
  length (filter (λ r, is_Some (r_days_left r)) rows).

(** A test double around the moment of expiry: it is noon (UTC) of 5
    January 2026, and the peers present certificates that ran out one
    second ago, that run out at this very instant, and that are good for
    one more hour. *)
Definition late_dates : list (string * datetime) :=
  [ ("Jan  5 11:59:59 2026 GMT", mk_datetime 2026 1 5 11 59 59 0);
    ("Jan  5 12:00:00 2026 GMT", mk_datetime 2026 1 5 12 0 0 0);
    ("Jan  5 13:00:00 2026 GMT", mk_datetime 2026 1 5 13 0 0 0) ].

Definition late_parse (s fmt : string) : result datetime :=
  match assoc s late_dates with
  | Some t => Return t
  | None => Raise (ValueError_format s fmt)
  end.

Definition late_net (host : string) : peer :=
  if String.eqb host "just-expired.test" then
    Presents (mk_cert (Some "Jan  5 11:59:59 2026 GMT") (Some ExampleCA))
  else if String.eqb host "expires-now.test" then
    Presents (mk_cert (Some "Jan  5 12:00:00 2026 GMT") (Some ExampleCA))
  else if String.eqb host "one-more-hour.test" then
    Presents (mk_cert (Some "Jan  5 13:00:00 2026 GMT") (Some ExampleCA))
  else Unreachable ConnectionRefusedError.

(** The local clock is on UTC and reads noon. *)
Definition late_runtime : Runtime :=
  mock_runtime late_net late_parse (λ _, demo_noon).

(** The same instant on a machine whose local zone is 14 hours ahead of
    UTC: the clock reads two in the morning of 6 January. *)
Definition ahead_runtime : Runtime :=
  mock_runtime late_net late_parse (λ _, mk_datetime 2026 1 6 2 0 0 0).

(** * Facts *)

(** ** Day counts *)

(** The day count of a difference of two naive datetimes is the floor of
    the distance of their instants in days. *)
Lemma days_sub_floor (a b : datetime) :
  days (sub a b) = (instant a - instant b) / us_per_day.
Proof.
  unfold sub, new_timedelta, instant, us_per_day; cbn [days].
  set (da := toordinal a); set (db := toordinal b).
  set (sa := second a + minute a * 60 + hour a * 3600).
  set (sb := second b + minute b * 60 + hour b * 3600).
  set (ua := microsecond a); set (ub := microsecond b).
  replace ((da * 86400 + sa) * 1000000 + ua
           - ((db * 86400 + sb) * 1000000 + ub))
    with (((da - db) * 86400 + (sa - sb)) * 1000000 + (ua - ub)) by lia.
  rewrite (Z.mul_comm 86400 1000000).
  rewrite <- Z.div_div by lia.
  rewrite Z.div_add_l by lia.
  rewrite <- Z.add_assoc.
  rewrite Z.div_add_l by lia.
  reflexivity.
Qed.

Lemma days_sub_bounds (a b : datetime) :
  let d := days (sub a b) in
  d * us_per_day ≤ instant a - instant b < (d + 1) * us_per_day.
Proof.
  cbn zeta. rewrite days_sub_floor.
  assert (0 < us_per_day) by (unfold us_per_day; lia).
  pose proof (Z.mul_div_le (instant a - instant b) us_per_day ltac:(lia)).
  pose proof (Z.mul_succ_div_gt (instant a - instant b) us_per_day ltac:(lia)).
  lia.
Qed.

(** ** The status text *)

Lemma status_of_cases (d : Z) :
  (d < 0 → status_of d = "Expired") ∧
  (0 ≤ d < 30 → status_of d = "Expiring Soon") ∧
  (30 ≤ d → status_of d = "Valid").
Proof.
  unfold status_of.
  destruct (Z.ltb_spec d 0), (Z.ltb_spec d 30);
    repeat split; intros; lia || reflexivity.
Qed.

Lemma status_of_is_cert_status (d : Z) : is_cert_status (status_of d) = true.
Proof.
  unfold status_of. destruct (d <? 0), (d <? 30); reflexivity.
Qed.

Lemma status_of_not_error (d : Z) : is_error_status (status_of d) = false.
Proof.
  unfold status_of. destruct (d <? 0), (d <? 30); reflexivity.
Qed.

Lemma error_status_is_error (msg : string) :
  is_error_status ("Error: " +:+ msg) = true.
Proof.
  unfold is_error_status. cbn.
  destruct msg; reflexivity.
Qed.

(** ** One host *)

Section Runs.

Context {rt : Runtime}.

(** The row of a host whose certificate was read. *)
Lemma check_host_fetched results host w expiry issuer_name w1 now w2 :
  get_cert_info host w = (Return (expiry, issuer_name), w1) →
  datetime_now w1 = (now, w2) →
  check_host results host w =
    (Return (results ++
       [Row host (Some (days (sub expiry now)))
            (status_of (days (sub expiry now))) issuer_name]), w2).
Proof.
  intros Hfetch Hnow.
  unfold check_host, try_except, mbind, Py_bind, py_bind, lift_total.
  rewrite Hfetch; cbn. rewrite Hnow. reflexivity.
Qed.

(** The row of a host for which [get_cert_info] raised. *)
Lemma check_host_raised results host w e w1 :
  get_cert_info host w = (Raise e, w1) →
  check_host results host w =
    (Return (results ++
       [Row host None ("Error: " +:+ str e) "Unknown Issuer"]), w1).
Proof.
  intros Hfetch.
  unfold check_host, try_except, mbind, Py_bind, py_bind.
  rewrite Hfetch. reflexivity.
Qed.

(** Every turn of the loop appends exactly one row, and the row does not
    depend on the rows before it. *)
Lemma check_host_appends results host w :
  ∃ r w1, check_host [] host w = (Return [r], w1) ∧
          check_host results host w = (Return (results ++ [r]), w1).
Proof.
  destruct (get_cert_info host w) as [[[expiry issuer_name]|e] w1] eqn:Hfetch.
  - destruct (datetime_now w1) as [now w2] eqn:Hnow.
    eexists _, w2. split.
    + rewrite (check_host_fetched [] _ _ _ _ _ _ _ Hfetch Hnow). reflexivity.
    + apply (check_host_fetched _ _ _ _ _ _ _ _ Hfetch Hnow).
  - eexists _, w1. split.
    + rewrite (check_host_raised [] _ _ _ _ Hfetch). reflexivity.
    + apply (check_host_raised _ _ _ _ _ Hfetch).
Qed.

(** The two shapes of a row, by what [get_cert_info] did. *)
Lemma check_host_row_cases host w r w1 :
  check_host [] host w = (Return [r], w1) →
  (∃ expiry issuer_name wa now,
     get_cert_info host w = (Return (expiry, issuer_name), wa) ∧
     datetime_now wa = (now, w1) ∧
     r = Row host (Some (days (sub expiry now)))
             (status_of (days (sub expiry now))) issuer_name) ∨
  (∃ e, get_cert_info host w = (Raise e, w1) ∧
        r = Row host None ("Error: " +:+ str e) "Unknown Issuer").
Proof.
  intros Hr.
  destruct (get_cert_info host w) as [[[expiry issuer_name]|e] wa] eqn:Hfetch.
  - destruct (datetime_now wa) as [now wb] eqn:Hnow.
    rewrite (check_host_fetched [] _ _ _ _ _ _ _ Hfetch Hnow) in Hr.
    injection Hr as <- <-. left. by exists expiry, issuer_name, wa, now.
  - rewrite (check_host_raised [] _ _ _ _ Hfetch) in Hr.
    injection Hr as <- <-. right. by exists e.
Qed.

Lemma check_host_keeps_host host w r w1 :
  check_host [] host w = (Return [r], w1) → r_host r = host.
Proof.
  intros Hr.
  destruct (check_host_row_cases _ _ _ _ Hr)
    as [(? & ? & ? & ? & _ & _ & ->) | (? & _ & ->)]; reflexivity.
Qed.

(** ** The loop *)

Lemma for_hosts_cons host rest results w r w1 :
  check_host [] host w = (Return [r], w1) →
  for_hosts (host :: rest) results w = for_hosts rest (results ++ [r]) w1.
Proof.
  intros Hr.
  destruct (check_host_appends results host w) as (r' & w1' & H0 & H1).
  rewrite Hr in H0. injection H0 as <- <-.
  cbn [for_hosts]. unfold mbind, Py_bind, py_bind. rewrite H1. reflexivity.
Qed.

(** The loop always returns, and the rows it finds in [results] stay in
    front of the rows it adds. *)
Lemma for_hosts_returns hosts :
  ∀ results w, ∃ rows w1,
    for_hosts hosts [] w = (Return rows, w1) ∧
    for_hosts hosts results w = (Return (results ++ rows), w1).
Proof.
  induction hosts as [|host rest IH]; intros results w.
  - exists [], w. cbn. unfold mret, Py_ret, py_ret.
    rewrite app_nil_r. done.
  - destruct (check_host_appends [] host w) as (r & w1 & Hr & _).
    rewrite !(for_hosts_cons _ _ _ _ _ _ Hr).
    destruct (IH [r] w1) as (rows & w2 & H0 & H1).
    destruct (IH (results ++ [r]) w1) as (rows' & w2' & H0' & H1').
    rewrite H0 in H0'. injection H0' as <- <-.
    exists (r :: rows), w2. cbn [app] in *. split; [done|].
    rewrite H1', <- app_assoc. done.
Qed.

Lemma check_expiry_returns hosts w :
  ∃ rows w1, check_expiry hosts w = (Return rows, w1).
Proof.
  destruct (for_hosts_returns hosts [] w) as (rows & w1 & H & _).
  by exists rows, w1.
Qed.

Lemma check_expiry_nil w : check_expiry [] w = (Return [], w).
Proof. reflexivity. Qed.

Lemma check_expiry_cons host rest w r w1 rows w2 :
  check_host [] host w = (Return [r], w1) →
  check_expiry rest w1 = (Return rows, w2) →
  check_expiry (host :: rest) w = (Return (r :: rows), w2).
Proof.
  intros Hr Hrest. unfold check_expiry in *.
  rewrite (for_hosts_cons _ _ _ _ _ _ Hr).
  destruct (for_hosts_returns rest [r] w1) as (rows' & w2' & H0 & H1).
  rewrite Hrest in H0. injection H0 as <- <-. exact H1.
Qed.

(** What a run on [host :: rest] returned splits into the row of [host]
    and the run on [rest]. *)
Lemma check_expiry_cons_inv host rest w rows w2 :
  check_expiry (host :: rest) w = (Return rows, w2) →
  ∃ r w1 rows', check_host [] host w = (Return [r], w1) ∧
                check_expiry rest w1 = (Return rows', w2) ∧
                rows = r :: rows'.
Proof.
  intros H.
  destruct (check_host_appends [] host w) as (r & w1 & Hr & _).
  destruct (check_expiry_returns rest w1) as (rows' & w2' & Hrest).
  rewrite (check_expiry_cons _ _ _ _ _ _ _ Hr Hrest) in H.
  injection H as <- <-. by exists r, w1, rows'.
Qed.

(** Running on a concatenation is running on the parts, the second from
    the world the first leaves. *)
Lemma check_expiry_app xs : ∀ ys w rows1 w1 rows2 w2,
  check_expiry xs w = (Return rows1, w1) →
  check_expiry ys w1 = (Return rows2, w2) →
  check_expiry (xs ++ ys) w = (Return (rows1 ++ rows2), w2).
Proof.
  induction xs as [|x xs IH]; intros ys w rows1 w1 rows2 w2 H1 H2.
  - rewrite check_expiry_nil in H1. injection H1 as <- <-. exact H2.
  - apply check_expiry_cons_inv in H1 as (r & w' & rows' & Hr & Hxs & ->).
    cbn [app]. apply (check_expiry_cons _ _ _ _ _ _ _ Hr).
    by apply (IH ys w' rows' w1 rows2 w2).
Qed.

(** Every row of a run is the row the loop body makes for the host at
    its position, from the world the hosts before it left. *)
Lemma check_expiry_rows hosts : ∀ w rows w1,
  check_expiry hosts w = (Return rows, w1) →
  Forall2 (λ host r, ∃ wa wb, check_host [] host wa = (Return [r], wb))
          hosts rows.
Proof.
  induction hosts as [|host rest IH]; intros w rows w1 H.
  - rewrite check_expiry_nil in H. injection H as <- <-. constructor.
  - apply check_expiry_cons_inv in H as (r & w' & rows' & Hr & Hrest & ->).
    constructor; [by exists w, w' | by apply (IH w' rows' w1)].
Qed.

Lemma check_expiry_single host w r w1 :
  check_host [] host w = (Return [r], w1) →
  check_expiry [host] w = (Return [r], w1).
Proof.
  intros Hr. apply (check_expiry_cons _ _ _ _ _ _ _ Hr), check_expiry_nil.
Qed.

(** The loop of [main] agrees with one call on the whole list. *)
Lemma main_loop_spec hosts : ∀ results w rows w1,
  check_expiry hosts w = (Return rows, w1) →
  main_loop hosts results w = (Return (results ++ rows), w1).
Proof.
  induction hosts as [|host rest IH]; intros results w rows w1 H.
  - rewrite check_expiry_nil in H. injection H as <- <-.
    cbn. unfold mret, Py_ret, py_ret. by rewrite app_nil_r.
  - apply check_expiry_cons_inv in H as (r & w' & rows' & Hr & Hrest & ->).
    cbn [main_loop]. unfold mbind, Py_bind, py_bind.
    rewrite (check_expiry_single _ _ _ _ Hr).
    rewrite (IH (results ++ [r]) w' rows' w1 Hrest).
    by rewrite <- app_assoc.
Qed.

End Runs.

(** ** Reading the certificate *)

Section Fetch.

Context {rt : Runtime}.

(** A [notAfter] text that [strptime] refuses makes [get_cert_info] raise
    what [strptime] raised, after both sockets are closed. *)
Lemma get_cert_info_unparsable host w e w1 :
  notAfter_unparsable host w e w1 → get_cert_info host w = (Raise e, w1).
Proof.
  intros (context & wa & sock & wb & ssock & wc & c & wd & expiry_str &
          Hctx & Hconn & Hwrap & Hcert & HnotAfter & Hparse & ->).
  unfold get_cert_info, with_as, mbind, Py_bind, py_bind, lift_result.
  rewrite Hctx, Hconn, Hwrap, Hcert, HnotAfter; cbn.
  rewrite Hparse. reflexivity.
Qed.

(** What [get_cert_info] returns when the certificate is read: the parsed
    [notAfter] and the organisation found among the first pairs. *)
Lemma get_cert_info_reads host w context w1 sock w2 ssock w3 c w4
    expiry_str expiry name pairs :
  create_default_context w = (Return context, w1) →
  create_connection (host, 443) w1 = (Return sock, w2) →
  wrap_socket context sock host w2 = (Return ssock, w3) →
  getpeercert ssock w3 = (Return c, w4) →
  cert_notAfter c = Some expiry_str →
  strptime expiry_str "%b %d %H:%M:%S %Y %Z" = Return expiry →
  cert_issuer c = Some name →
  first_items name = Return pairs →
  get_cert_info host w =
    (Return (expiry, dict_get (dict pairs) "organizationName" "Unknown Issuer"),
     socket_exit sock (sslsocket_exit ssock w4)).
Proof.
  intros Hctx Hconn Hwrap Hcert HnotAfter Hparse Hissuer Hpairs.
  unfold get_cert_info, with_as, mbind, Py_bind, py_bind, lift_result.
  rewrite Hctx, Hconn, Hwrap, Hcert, HnotAfter; cbn.
  rewrite Hparse, Hissuer; cbn. rewrite Hpairs. reflexivity.
Qed.

End Fetch.

(** ** The issuer dictionary *)

Lemma dict_snoc pairs k v : dict (pairs ++ [(k, v)]) = <[k := v]> (dict pairs).
Proof. unfold dict. by rewrite foldl_app. Qed.

(** A key is in the dictionary exactly when some pair carries it. *)
Lemma dict_lookup_None pairs k : dict pairs !! k = None ↔ k ∉ pairs.*1.
Proof.
  induction pairs as [|[k' v'] pairs IH] using rev_ind.
  - cbn. rewrite lookup_empty. split; [intros _; apply not_elem_of_nil | done].
  - rewrite dict_snoc, fmap_app, elem_of_app; cbn.
    rewrite list_elem_of_singleton.
    destruct (decide (k' = k)) as [->|Hne].
    + rewrite lookup_insert_eq. split; [done | tauto].
    + rewrite lookup_insert_ne by done. rewrite IH. split.
      * intros Hn [H | H]; [tauto | congruence].
      * tauto.
Qed.

(** The dictionary holds for a key the value of the last pair with it. *)
Lemma dict_lookup_last pairs1 k v pairs2 :
  k ∉ pairs2.*1 → dict (pairs1 ++ (k, v) :: pairs2) !! k = Some v.
Proof.
  induction pairs2 as [|[k' v'] pairs2 IH] using rev_ind; intros Hk.
  - rewrite dict_snoc. apply lookup_insert_eq.
  - rewrite fmap_app, elem_of_app in Hk; cbn in Hk.
    rewrite list_elem_of_singleton in Hk.
    replace (pairs1 ++ (k, v) :: pairs2 ++ [(k', v')])
      with ((pairs1 ++ (k, v) :: pairs2) ++ [(k', v')])
      by (by rewrite <- app_assoc).
    rewrite dict_snoc, lookup_insert_ne by (intros ->; tauto).
    apply IH. tauto.
Qed.

(** On a name of single-valued RDNs the first pairs are all the pairs. *)
Lemma first_items_single_valued (name : list rdn) :
  Forall (λ x, length x = 1%nat) name →
  first_items name = Return (concat name).
Proof.
  induction 1 as [|x name Hx _ IH]; [done|].
  destruct x as [|kv [|? ?]]; try discriminate.
  cbn. by rewrite IH.
Qed.

(** * The claims *)

(** C1. For every list of hosts and every behaviour of the network and the
    clock, [check_expiry] returns, with exactly one row per host, in the
    order of the input, the row of a host carrying that host's name as it
    was given; each row is the row the loop body makes for its host from
    some state of the world, whatever happened to the hosts before it. *)
Theorem check_expiry_one_row_per_host {rt : Runtime}
    (hosts : list string) (w : World) :
  ∃ rows w1,
    check_expiry hosts w = (Return rows, w1) ∧
    length rows = length hosts ∧
    r_host <$> rows = hosts ∧
    Forall2 (λ host r, r_host r = host ∧
               ∃ wa wb, check_host [] host wa = (Return [r], wb))
            hosts rows.
Proof.
  destruct (check_expiry_returns hosts w) as (rows & w1 & Hrun).
  exists rows, w1. split; [exact Hrun|].
  apply check_expiry_rows in Hrun.
  induction Hrun as [|host r hosts rows (wa & wb & Hr) _ (Hlen & Hmap & Hall)].
  - repeat split; constructor.
  - pose proof (check_host_keeps_host _ _ _ _ Hr) as Hhost. cbn.
    repeat split; [by rewrite Hlen | by rewrite Hhost, Hmap |].
    constructor; [|done]. split; [done|]. by exists wa, wb.
Qed.

(** C2. When [get_cert_info] raises for a host, whatever the exception,
    and in particular when [strptime] refuses the [notAfter] text, the
    row of the host is the host, no day count ([None], not a number), the
    status ["Error: "] followed by the text of the exception, and the
    issuer ["Unknown Issuer"]; the rows of the hosts before it stay, the
    hosts after it are checked, and the call returns. *)
Theorem check_expiry_contains_failure {rt : Runtime}
    (before : list string) (host : string) (after : list string)
    (w : World) (rows_before : list row) (w1 : World)
    (e : exception) (w2 : World) :
  check_expiry before w = (Return rows_before, w1) →
  get_cert_info host w1 = (Raise e, w2) ∨ notAfter_unparsable host w1 e w2 →
  ∃ rows_after w3,
    check_expiry after w2 = (Return rows_after, w3) ∧
    check_expiry (before ++ host :: after) w =
      (Return (rows_before ++
               Row host None ("Error: " +:+ str e) "Unknown Issuer"
               :: rows_after), w3).
Proof.
  intros Hbefore Hfail.
  assert (get_cert_info host w1 = (Raise e, w2)) as Hraise.
  { destruct Hfail as [H | H]; [exact H | by apply get_cert_info_unparsable]. }
  destruct (check_expiry_returns after w2) as (rows_after & w3 & Hafter).
  exists rows_after, w3. split; [exact Hafter|].
  apply (check_expiry_app _ _ _ _ _ _ _ Hbefore).
  apply (check_expiry_cons _ _ _ _ _ _ _ (check_host_raised [] _ _ _ _ Hraise)).
  exact Hafter.
Qed.

Lemma check_expiry_contains_failure_witness :
  ∃ rows_after w3,
    check_expiry (rt := demo_runtime) ["soon-example.test"] 1%nat =
      (Return rows_after, w3) ∧
    check_expiry (rt := demo_runtime)
      (["valid-example.test"] ++ "garbled.test" :: ["soon-example.test"])
      0%nat =
      (Return ([Row "valid-example.test" (Some 400) "Valid" "ExampleCA"] ++
               Row "garbled.test" None
                 ("Error: " +:+
                  str (ValueError_format "05/01/2026" "%b %d %H:%M:%S %Y %Z"))
                 "Unknown Issuer"
               :: rows_after), w3).
Proof.
  apply (check_expiry_contains_failure (rt := demo_runtime)
           ["valid-example.test"] "garbled.test" ["soon-example.test"]
           0%nat [Row "valid-example.test" (Some 400) "Valid" "ExampleCA"]
           1%nat (ValueError_format "05/01/2026" "%b %d %H:%M:%S %Y %Z")
           1%nat).
  - vm_compute. reflexivity.
  - right. unfold notAfter_unparsable.
    exists (), 1%nat, "garbled.test", 1%nat,
           (mk_cert (Some "05/01/2026") (Some ExampleCA)), 1%nat,
           (mk_cert (Some "05/01/2026") (Some ExampleCA)), 1%nat,
           "05/01/2026".
    repeat split.
Defined.



(** The day count in terms of instants: the expiry is a GMT reading,
    the clock reading is taken [utcoffset] ahead of UTC, and the two
    naive values are subtracted as they are, so that the offset of the
    local zone enters the count. *)
Lemma days_left_at_utcoffset (expiry now : datetime) (t_expiry t_now : Z)
    (utcoffset : Z) :
  reads_at 0 expiry t_expiry →
  reads_at utcoffset now t_now →
  days (sub expiry now) = (t_expiry - t_now - utcoffset) / us_per_day.
Proof.
  unfold reads_at. intros Hexp Hnow. rewrite days_sub_floor.
  f_equal. lia.
Qed.

(** On a machine 14 hours ahead of UTC a certificate that is good for
    one more hour is reported with day count -1 and as ["Expired"]. *)
Lemma zone_ahead_reports_expired :
  reads_at 0 (mk_datetime 2026 1 5 13 0 0 0)
           (instant demo_noon + us_per_hour) ∧
  reads_at (14 * us_per_hour) (mk_datetime 2026 1 6 2 0 0 0)
           (instant demo_noon) ∧
  check_expiry (rt := ahead_runtime) ["one-more-hour.test"] 0%nat =
    (Return [Row "one-more-hour.test" (Some (-1)) "Expired" "ExampleCA"],
     1%nat).
Proof. repeat split; vm_compute; reflexivity. Qed.

(** C4, as the code has it, on a machine whose local clock is on UTC.
    For a host whose certificate was read, the day count is the floor of
    the distance from the instant at which the clock was read for that
    host (after its fetch, before the next host is touched) to the
    expiry instant, in days: it rounds toward minus infinity. It agrees
    with rounding toward zero when the expiry is not in the past; 29
    days and 23 hours ahead gives 29; an expiry less than a day in the
    past gives -1. *)
Theorem check_expiry_days_floor {rt : Runtime}
    (host : string) (rest : list string) (w : World) (expiry : datetime)
    (issuer_name : string) (w1 : World) (now : datetime) (w2 : World)
    (t_expiry t_now : Z) :
  get_cert_info host w = (Return (expiry, issuer_name), w1) →
  datetime_now w1 = (now, w2) →
  reads_at 0 expiry t_expiry →
  reads_at 0 now t_now →
  ∃ d s rows w3,
    check_expiry rest w2 = (Return rows, w3) ∧
    check_expiry (host :: rest) w =
      (Return (Row host (Some d) s issuer_name :: rows), w3) ∧
    d = (t_expiry - t_now) / us_per_day ∧
    d * us_per_day ≤ t_expiry - t_now < (d + 1) * us_per_day ∧
    (t_now ≤ t_expiry → d = truncated_days t_expiry t_now) ∧
    (t_expiry = t_now + 29 * us_per_day + 23 * us_per_hour → d = 29) ∧
    (t_now - us_per_day ≤ t_expiry < t_now → d = -1).
Proof.
  intros Hfetch Hnow Hexp Hutc.
  destruct (check_expiry_returns rest w2) as (rows & w3 & Hrest).
  exists (days (sub expiry now)), (status_of (days (sub expiry now))), rows, w3.
  split; [exact Hrest|]. split.
  { apply (check_expiry_cons _ _ _ _ _ _ _
             (check_host_fetched [] _ _ _ _ _ _ _ Hfetch Hnow) Hrest). }
  pose proof (days_sub_bounds expiry now) as Hb. cbn zeta in Hb.
  pose proof (days_left_at_utcoffset _ _ _ _ _ Hexp Hutc) as Hd.
  rewrite Z.sub_0_r in Hd. unfold reads_at in Hexp, Hutc.
  replace (instant expiry - instant now) with (t_expiry - t_now) in Hb by lia.
  split; [exact Hd|]. split; [exact Hb|].
  unfold truncated_days, us_per_day, us_per_hour in *.
  repeat split.
  - intros Hle. rewrite Z.quot_div_nonneg by lia. exact Hd.
  - intros Heq. lia.
  - intros Hpast. lia.
Qed.

Lemma check_expiry_days_floor_witness :
  let t_expiry := instant (mk_datetime 2026 1 5 11 59 59 0) in
  let t_now := instant demo_noon in
  ∃ d s rows w3,
    check_expiry (rt := late_runtime) ["one-more-hour.test"] 1%nat =
      (Return rows, w3) ∧
    check_expiry (rt := late_runtime)
      ("just-expired.test" :: ["one-more-hour.test"]) 0%nat =
      (Return (Row "just-expired.test" (Some d) s "ExampleCA" :: rows), w3) ∧
    d = (t_expiry - t_now) / us_per_day ∧
    d * us_per_day ≤ t_expiry - t_now < (d + 1) * us_per_day ∧
    (t_now ≤ t_expiry → d = truncated_days t_expiry t_now) ∧
    (t_expiry = t_now + 29 * us_per_day + 23 * us_per_hour → d = 29) ∧
    (t_now - us_per_day ≤ t_expiry < t_now → d = -1).
Proof.
  intros t_expiry t_now.
  apply (check_expiry_days_floor (rt := late_runtime)
           "just-expired.test" ["one-more-hour.test"] 0%nat
           (mk_datetime 2026 1 5 11 59 59 0) "ExampleCA" 0%nat
           demo_noon 1%nat t_expiry t_now).
  - vm_compute. reflexivity.
  - reflexivity.
  - vm_compute. reflexivity.
  - vm_compute. reflexivity.
Defined.

(** C4 as stated fails, also with the local clock on UTC: a certificate
    that was still accepted by the handshake and ran out one second
    before the clock was read has a distance of minus one second, which
    rounded toward zero is 0 days; the program reports -1 (and
    ["Expired"]). *)
Lemma days_left_not_truncated :
  ¬ (∀ host w expiry issuer_name w1 now w2 t_expiry t_now,
       get_cert_info (rt := late_runtime) host w =
         (Return (expiry, issuer_name), w1) →
       datetime_now (Runtime := late_runtime) w1 = (now, w2) →
       reads_at 0 expiry t_expiry →
       reads_at 0 now t_now →
       ∃ s, check_expiry (rt := late_runtime) [host] w =
              (Return [Row host (Some (truncated_days t_expiry t_now)) s
                           issuer_name], w2)).
Proof.
  intros Hclaim.
  destruct (Hclaim "just-expired.test" 0%nat
              (mk_datetime 2026 1 5 11 59 59 0) "ExampleCA" 0%nat
              demo_noon 1%nat
              (instant (mk_datetime 2026 1 5 11 59 59 0))
              (instant demo_noon)) as [s Hs].
  - vm_compute. reflexivity.
  - reflexivity.
  - vm_compute. reflexivity.
  - vm_compute. reflexivity.
  - vm_compute in Hs. discriminate Hs.
Qed.

(** C5, as the code has it, for a host whose certificate was read (the
    handshake accepted it and [get_cert_info] returned) on a machine
    whose local clock is on UTC. When the expiry instant is the instant
    at which the clock was read or earlier, the day count is at most 0;
    when the expiry is strictly earlier the count is negative and the
    status is ["Expired"]; when it is that very instant the count is 0
    and the status is ["Expiring Soon"]. *)
Theorem check_expiry_past_expiry {rt : Runtime}
    (host : string) (w : World) (expiry : datetime) (issuer_name : string)
    (w1 : World) (now : datetime) (w2 : World) (t_expiry t_now : Z) :
  get_cert_info host w = (Return (expiry, issuer_name), w1) →
  datetime_now w1 = (now, w2) →
  reads_at 0 expiry t_expiry →
  reads_at 0 now t_now →
  t_expiry ≤ t_now →
  ∃ d s,
    check_expiry [host] w = (Return [Row host (Some d) s issuer_name], w2) ∧
    d ≤ 0 ∧
    (t_expiry < t_now → d < 0 ∧ s = "Expired") ∧
    (t_expiry = t_now → d = 0 ∧ s = "Expiring Soon").
Proof.
  intros Hfetch Hnow Hexp Hutc Hle.
  exists (days (sub expiry now)), (status_of (days (sub expiry now))).
  split.
  { apply check_expiry_single.
    apply (check_host_fetched [] _ _ _ _ _ _ _ Hfetch Hnow). }
  pose proof (days_sub_bounds expiry now) as Hb. cbn zeta in Hb.
  destruct (status_of_cases (days (sub expiry now))) as (Hneg & Hsoon & _).
  unfold reads_at in Hexp, Hutc. unfold us_per_day in Hb.
  split; [lia|]. split.
  - intros Hlt. assert (days (sub expiry now) < 0) by lia. auto.
  - intros Heq. assert (days (sub expiry now) = 0) as H0 by lia.
    split; [exact H0|]. apply Hsoon. lia.
Qed.

Lemma check_expiry_past_expiry_witness :
  let t_expiry := instant (mk_datetime 2026 1 5 11 59 59 0) in
  let t_now := instant demo_noon in
  ∃ d s,
    check_expiry (rt := late_runtime) ["just-expired.test"] 0%nat =
      (Return [Row "just-expired.test" (Some d) s "ExampleCA"], 1%nat) ∧
    d ≤ 0 ∧
    (t_expiry < t_now → d < 0 ∧ s = "Expired") ∧
    (t_expiry = t_now → d = 0 ∧ s = "Expiring Soon").
Proof.
  intros t_expiry t_now.
  apply (check_expiry_past_expiry (rt := late_runtime)
           "just-expired.test" 0%nat (mk_datetime 2026 1 5 11 59 59 0)
           "ExampleCA" 0%nat demo_noon 1%nat t_expiry t_now).
  - vm_compute. reflexivity.
  - reflexivity.
  - vm_compute. reflexivity.
  - vm_compute. reflexivity.
  - vm_compute. discriminate.
Defined.

(** C5 as stated fails, also with the local clock on UTC and a
    certificate that was read: when the certificate runs out at the very
    instant at which the clock is read, the day count is 0 and the
    status is ["Expiring Soon"], not ["Expired"]. *)
Lemma expiry_now_not_expired :
  ¬ (∀ host w expiry issuer_name w1 now w2 t_expiry t_now,
       get_cert_info (rt := late_runtime) host w =
         (Return (expiry, issuer_name), w1) →
       datetime_now (Runtime := late_runtime) w1 = (now, w2) →
       reads_at 0 expiry t_expiry →
       reads_at 0 now t_now →
       t_expiry ≤ t_now →
       ∃ d, d ≤ 0 ∧
            check_expiry (rt := late_runtime) [host] w =
              (Return [Row host (Some d) "Expired" issuer_name], w2)).
Proof.
  intros Hclaim.
  destruct (Hclaim "expires-now.test" 0%nat demo_noon
              "ExampleCA" 0%nat demo_noon 1%nat
              (instant demo_noon) (instant demo_noon)) as (d & _ & Hd).
  - vm_compute. reflexivity.
  - reflexivity.
  - vm_compute. reflexivity.
  - vm_compute. reflexivity.
  - reflexivity.
  - vm_compute in Hd. discriminate Hd.
Qed.

(** ** The issuer *)

Lemma first_items_sound (name : list rdn) : ∀ pairs,
  first_items name = Return pairs →
  ∀ kv, kv ∈ pairs → ∃ x, x ∈ name ∧ kv ∈ x.
Proof.
  induction name as [|x name IH]; intros pairs H kv Hkv.
  - injection H as <-. by apply elem_of_nil in Hkv.
  - destruct x as [|kv0 x]; [discriminate|]. cbn in H.
    destruct (first_items name) as [kvs|e]; [|discriminate].
    injection H as <-.
    apply elem_of_cons in Hkv as [-> | Hkv].
    + exists (kv0 :: x). split; apply elem_of_cons; by left.
    + destruct (IH kvs eq_refl kv Hkv) as (y & Hy & Hin).
      exists y. split; [apply elem_of_cons; by right | done].
Qed.

(** No organisation anywhere in the name: the fallback label. *)
Lemma issuer_fallback_when_absent (name : list rdn) pairs :
  first_items name = Return pairs →
  ¬ name_has name "organizationName" →
  dict_get (dict pairs) "organizationName" "Unknown Issuer" = "Unknown Issuer".
Proof.
  intros Hpairs Habsent. unfold dict_get.
  replace (dict pairs !! "organizationName") with (@None string); [done|].
  symmetry. apply dict_lookup_None. intros Hin.
  apply list_elem_of_fmap in Hin as ([k v] & Hk & Hkv). cbn in Hk. subst k.
  destruct (first_items_sound _ _ Hpairs _ Hkv) as (x & Hx & Hin).
  apply Habsent. by exists x, v.
Qed.

(** In a name of single-valued RDNs the organisation is found; when it
    occurs more than once the last occurrence is the one reported. *)
Lemma issuer_found_when_single_valued (name1 : list rdn) v (name2 : list rdn) :
  Forall (λ x, length x = 1%nat)
         (name1 ++ [("organizationName", v)] :: name2) →
  ¬ name_has name2 "organizationName" →
  ∃ pairs,
    first_items (name1 ++ [("organizationName", v)] :: name2) = Return pairs ∧
    dict_get (dict pairs) "organizationName" "Unknown Issuer" = v.
Proof.
  intros Hsingle Habsent.
  exists (concat (name1 ++ [("organizationName", v)] :: name2)).
  split; [by apply first_items_single_valued|].
  rewrite concat_app; cbn. unfold dict_get.
  rewrite dict_lookup_last; [done|].
  intros Hin. apply list_elem_of_fmap in Hin as ([k v'] & Hk & Hkv).
  cbn in Hk. subst k.
  apply list_elem_of_In, in_concat in Hkv as (x & Hx & Hin).
  apply Habsent. exists x, v'. by rewrite !list_elem_of_In.
Qed.

(** C6. The issuer of a row is meant to be the organisation attribute of
    the issuer name when the name has one. The program looks only at the
    first pair of every RDN: on the certificate of ["multi-rdn.test"],
    whose issuer name has the organisation ["ExampleCA"] as the second
    pair of an RDN, [get_cert_info] returns the fallback label
    ["Unknown Issuer"], and so does the row of [check_expiry]. *)
Theorem issuer_missed_in_multi_valued_rdn :
  name_has ExampleCA_multi "organizationName" ∧
  demo_net "multi-rdn.test" =
    Presents (mk_cert (Some "Feb  9 12:00:00 2027 GMT")
                      (Some ExampleCA_multi)) ∧
  get_cert_info (rt := demo_runtime) "multi-rdn.test" 0%nat =
    (Return (mk_datetime 2027 2 9 12 0 0 0, "Unknown Issuer"), 0%nat) ∧
  check_expiry (rt := demo_runtime) ["multi-rdn.test"] 0%nat =
    (Return [Row "multi-rdn.test" (Some 400) "Valid" "Unknown Issuer"],
     1%nat).
Proof.
  split.
  { exists [("commonName", "Example Root"); ("organizationName", "ExampleCA")],
           "ExampleCA".
    unfold ExampleCA_multi. split; repeat constructor. }
  split; [reflexivity|].
  split; vm_compute; reflexivity.
Qed.

(** ** Calling again *)

(** The test double's fetcher is fixed: its network and its [strptime] are
    tables, and the world only counts clock readings. *)
Lemma mock_fetcher_fixed net parse clock :
  fetcher_fixed (rt := mock_runtime net parse clock).
Proof.
  intros host w1 w2.
  unfold get_cert_info, with_as, mbind, Py_bind, py_bind, lift_result; cbn.
  destruct (net host) as [e|e|c] eqn:Hnet; cbn; rewrite ?Hnet; cbn; try done.
  destruct (cert_notAfter c); cbn; try done.
  destruct (parse _ _); cbn; try done.
  destruct (cert_issuer c); cbn; try done.
  destruct (first_items _); done.
Qed.

Section Repeat.

Context {rt : Runtime}.

(** Two rows for one host under a fixed fetcher: the same host and
    issuer; the same row altogether when the first is an error row, when
    the day counts agree, or when the clock is fixed as well. *)
Lemma check_host_repeat host wa a wa' wb b wb' :
  fetcher_fixed →
  check_host [] host wa = (Return [a], wa') →
  check_host [] host wb = (Return [b], wb') →
  r_host a = r_host b ∧
  r_issuer_name a = r_issuer_name b ∧
  (r_days_left a = None ∨ r_days_left a = r_days_left b → a = b) ∧
  (clock_fixed → a = b).
Proof.
  intros Hfixed Ha Hb. specialize (Hfixed host wa wb).
  destruct (check_host_row_cases _ _ _ _ Ha)
    as [(ea & ia & wa1 & na & Hfa & Hna & ->) | (ea & Hfa & ->)];
  destruct (check_host_row_cases _ _ _ _ Hb)
    as [(eb & ib & wb1 & nb & Hfb & Hnb & ->) | (eb & Hfb & ->)];
  rewrite Hfa, Hfb in Hfixed; cbn in Hfixed; try discriminate;
  simplify_eq; cbn.
  - repeat split; try done.
    + intros [? | Hd]; [done|]. injection Hd as Hd. by rewrite Hd.
    + intros Hclock. specialize (Hclock wa1 wb1).
      rewrite Hna, Hnb in Hclock. cbn in Hclock. by subst.
  - done.
Qed.

Lemma check_expiry_fixed_world hosts : ∀ w1 rows1 w1' w2 rows2 w2',
  fetcher_fixed → clock_fixed →
  check_expiry hosts w1 = (Return rows1, w1') →
  check_expiry hosts w2 = (Return rows2, w2') →
  rows1 = rows2.
Proof.
  induction hosts as [|host rest IH];
    intros w1 rows1 w1' w2 rows2 w2' Hfetch Hclock H1 H2.
  - rewrite check_expiry_nil in H1, H2. by simplify_eq.
  - apply check_expiry_cons_inv in H1 as (a & wa & rows1' & Ha & H1 & ->).
    apply check_expiry_cons_inv in H2 as (b & wb & rows2' & Hb & H2 & ->).
    destruct (check_host_repeat _ _ _ _ _ _ _ Hfetch Ha Hb)
      as (_ & _ & _ & Hab).
    f_equal; [by apply Hab | by eapply IH].
Qed.

End Repeat.

(** C7, as the code has it. With a fixed fetcher, two calls on the same
    hosts give rows with the same host and the same issuer at every
    position; a row is the same in both calls when it is an error row or
    when its day count is the same in both (the status is determined by
    the day count, so it can change only together with it); with the
    clock fixed as well the two results are equal. *)
Theorem check_expiry_repeatable {rt : Runtime}
    (hosts : list string) (w1 : World) (rows1 : list row) (w1' : World)
    (w2 : World) (rows2 : list row) (w2' : World) :
  fetcher_fixed →
  check_expiry hosts w1 = (Return rows1, w1') →
  check_expiry hosts w2 = (Return rows2, w2') →
  r_host <$> rows1 = r_host <$> rows2 ∧
  r_issuer_name <$> rows1 = r_issuer_name <$> rows2 ∧
  Forall2 (λ a b, r_days_left a = None ∨ r_days_left a = r_days_left b →
                  a = b) rows1 rows2 ∧
  (clock_fixed → rows1 = rows2).
Proof.
  intros Hfetch H1 H2.
  split; [|split; [|split]];
    [| | | intros Hclock;
           exact (check_expiry_fixed_world _ _ _ _ _ _ _ Hfetch Hclock H1 H2)];
    revert w1 rows1 w1' w2 rows2 w2' H1 H2;
    (induction hosts as [|host rest IH]; intros w1 rows1 w1' w2 rows2 w2' H1 H2;
     [ rewrite check_expiry_nil in H1, H2; simplify_eq; by constructor
     | apply check_expiry_cons_inv in H1 as (a & wa & rows1' & Ha & H1 & ->);
       apply check_expiry_cons_inv in H2 as (b & wb & rows2' & Hb & H2 & ->);
       destruct (check_host_repeat _ _ _ _ _ _ _ Hfetch Ha Hb)
         as (Hhost & Hissuer & Hsame & _);
       specialize (IH _ _ _ _ _ _ H1 H2) ]).
  - cbn. by rewrite Hhost, IH.
  - cbn. by rewrite Hissuer, IH.
  - by constructor.
Qed.

Lemma check_expiry_repeatable_witness :
  let hosts := ["thirty-days.test"; "unreachable.test"] in
  let rows1 :=
    [Row "thirty-days.test" (Some 30) "Valid" "ExampleCA";
     Row "unreachable.test" None "Error: [Errno 111] Connection refused"
         "Unknown Issuer"] in
  let rows2 :=
    [Row "thirty-days.test" (Some 29) "Expiring Soon" "ExampleCA";
     Row "unreachable.test" None "Error: [Errno 111] Connection refused"
         "Unknown Issuer"] in
  r_host <$> rows1 = r_host <$> rows2 ∧
  r_issuer_name <$> rows1 = r_issuer_name <$> rows2 ∧
  Forall2 (λ a b, r_days_left a = None ∨ r_days_left a = r_days_left b →
                  a = b) rows1 rows2 ∧
  (clock_fixed (rt := ticking_runtime) → rows1 = rows2).
Proof.
  intros hosts rows1 rows2.
  apply (check_expiry_repeatable (rt := ticking_runtime)
           hosts 0%nat rows1 1%nat 1%nat rows2 2%nat).
  - apply mock_fetcher_fixed.
  - vm_compute. reflexivity.
  - vm_compute. reflexivity.
Defined.

(** C7 as stated fails: with a fixed fetcher and a clock that advances by
    one second between two calls, a certificate that had exactly 30 days
    left at the first call is ["Valid"] in the first result and
    ["Expiring Soon"] in the second. *)
Lemma status_changes_when_clock_advances :
  ¬ (fetcher_fixed (rt := ticking_runtime) →
     ∀ hosts w rows1 w1 rows2 w2,
       check_expiry (rt := ticking_runtime) hosts w = (Return rows1, w1) →
       check_expiry (rt := ticking_runtime) hosts w1 = (Return rows2, w2) →
       r_status <$> rows1 = r_status <$> rows2 ∧
       r_issuer_name <$> rows1 = r_issuer_name <$> rows2).
Proof.
  intros Hclaim.
  destruct (Hclaim (mock_fetcher_fixed _ _ _) ["thirty-days.test"] 0%nat
              [Row "thirty-days.test" (Some 30) "Valid" "ExampleCA"] 1%nat
              [Row "thirty-days.test" (Some 29) "Expiring Soon" "ExampleCA"]
              2%nat) as [Hstatus _].
  - vm_compute. reflexivity.
  - vm_compute. reflexivity.
  - discriminate Hstatus.
Qed.

(** ** The shape of a row *)

Lemma error_status_not_cert_status (msg : string) :
  is_cert_status ("Error: " +:+ msg) = false.
Proof.
  apply bool_decide_eq_false. cbn.
  rewrite !elem_of_cons, elem_of_nil.
  intros [H | [H | [H | []]]]; discriminate H.
Qed.

(** C9. [check_expiry] returns, and in every row it returns the day
    count is absent exactly when the status is an error status
    (["Error: "] and a message); the day count is present exactly when
    the status is one of ["Expired"], ["Expiring Soon"], ["Valid"]; and
    every status is of one of the two kinds. *)
Theorem check_expiry_days_absent_iff_error {rt : Runtime}
    (hosts : list string) (w : World) :
  ∃ rows w1,
    check_expiry hosts w = (Return rows, w1) ∧
    Forall (λ r,
      (r_days_left r = None ↔ is_error_status (r_status r) = true) ∧
      (is_Some (r_days_left r) ↔ is_cert_status (r_status r) = true) ∧
      (is_cert_status (r_status r) = true ∨
       is_error_status (r_status r) = true)) rows.
Proof.
  destruct (check_expiry_returns hosts w) as (rows & w1 & Hrun).
  exists rows, w1. split; [exact Hrun|].
  apply check_expiry_rows in Hrun.
  induction Hrun as [|host r hosts rows (wa & wb & Hr) _ IH]; constructor;
    [|exact IH].
  destruct (check_host_row_cases _ _ _ _ Hr)
    as [(expiry & issuer_name & wc & now & _ & _ & ->) | (e & _ & ->)]; cbn.
  - rewrite status_of_not_error, status_of_is_cert_status.
    split; [done|]. split; [|by left].
    split; [done | by eexists].
  - rewrite error_status_is_error, error_status_not_cert_status.
    split; [done|]. split; [|by right].
    split; [by intros [? ?] | done].
Qed.

(** ** Concatenation *)

Lemma main_results_spec {rt : Runtime} (hosts : list string) (w : World) :
  main_results hosts w = check_expiry hosts w.
Proof.
  destruct (check_expiry_returns hosts w) as (rows & w1 & Hrun).
  unfold main_results. by rewrite (main_loop_spec _ _ _ _ _ Hrun), Hrun.
Qed.

(** C10. With a fixed fetcher and a fixed clock, the rows of
    [check_expiry (xs ++ ys)] are the rows of [check_expiry xs] followed
    by the rows of [check_expiry ys], from whatever worlds the three
    calls start; [check_expiry []] returns no rows; and the loop of
    [main], which calls [check_expiry] on one host at a time and extends
    its list, computes what one call on the whole list computes. *)
Theorem check_expiry_concat {rt : Runtime}
    (xs ys : list string) (w wx wy : World) :
  fetcher_fixed → clock_fixed →
  ∃ rows_x rows_y,
    (check_expiry xs wx).1 = Return rows_x ∧
    (check_expiry ys wy).1 = Return rows_y ∧
    (check_expiry (xs ++ ys) w).1 = Return (rows_x ++ rows_y) ∧
    (check_expiry [] w).1 = Return [] ∧
    main_results (xs ++ ys) w = check_expiry (xs ++ ys) w.
Proof.
  intros Hfetch Hclock.
  destruct (check_expiry_returns xs wx) as (rows_x & wx' & Hx).
  destruct (check_expiry_returns ys wy) as (rows_y & wy' & Hy).
  destruct (check_expiry_returns xs w) as (rows_x' & w' & Hx').
  destruct (check_expiry_returns ys w') as (rows_y' & w'' & Hy').
  pose proof (check_expiry_fixed_world _ _ _ _ _ _ _ Hfetch Hclock Hx' Hx)
    as ->.
  pose proof (check_expiry_fixed_world _ _ _ _ _ _ _ Hfetch Hclock Hy' Hy)
    as ->.
  exists rows_x, rows_y.
  repeat split;
    [ by rewrite Hx | by rewrite Hy
    | by rewrite (check_expiry_app _ _ _ _ _ _ _ Hx' Hy')
    | apply main_results_spec ].
Qed.

Lemma check_expiry_concat_witness :
  ∃ rows_x rows_y,
    (check_expiry (rt := demo_runtime)
       ["valid-example.test"; "unreachable.test"] 5%nat).1 = Return rows_x ∧
    (check_expiry (rt := demo_runtime) ["soon-example.test"] 7%nat).1 =
      Return rows_y ∧
    (check_expiry (rt := demo_runtime)
       (["valid-example.test"; "unreachable.test"] ++ ["soon-example.test"])
       0%nat).1 = Return (rows_x ++ rows_y) ∧
    (check_expiry (rt := demo_runtime) [] 0%nat).1 = Return [] ∧
    main_results (rt := demo_runtime)
      (["valid-example.test"; "unreachable.test"] ++ ["soon-example.test"])
      0%nat =
    check_expiry (rt := demo_runtime)
      (["valid-example.test"; "unreachable.test"] ++ ["soon-example.test"])
      0%nat.
Proof.
  apply (check_expiry_concat (rt := demo_runtime)
           ["valid-example.test"; "unreachable.test"] ["soon-example.test"]
           0%nat 5%nat 7%nat).
  - apply mock_fetcher_fixed.
  - intros w1 w2. reflexivity.
Defined.

(** * Further properties of the program *)

(** ** Splitting the text into hosts *)

Lemma split_nonempty sep s : split sep s ≠ [].
Proof.
  destruct s as [|c rest]; cbn; [done|].
  destruct (Ascii.eqb c sep); [done|]. by destruct (split sep rest).
Qed.

Lemma split_length sep s : length (split sep s) = S (count_char sep s).
Proof.
  induction s as [|c rest IH]; cbn; [done|].
  destruct (Ascii.eqb c sep); cbn; [by rewrite IH|].
  pose proof (split_nonempty sep rest).
  destruct (split sep rest); [done|]. exact IH.
Qed.

Lemma split_pieces_no_sep sep s :
  Forall (λ piece, count_char sep piece = O) (split sep s).
Proof.
  induction s as [|c rest IH]; cbn; [by repeat constructor|].
  destruct (Ascii.eqb c sep) eqn:Hc; [by constructor|].
  destruct (split sep rest) as [|piece pieces].
  - constructor; [cbn; by rewrite Hc | constructor].
  - inversion_clear IH. constructor; [|done]. cbn. by rewrite Hc.
Qed.

Lemma append_nil_l (s : string) : "" +:+ s = s.
Proof. reflexivity. Qed.

Lemma append_cons (c : ascii) (s t : string) :
  String c s +:+ t = String c (s +:+ t).
Proof. reflexivity. Qed.

Lemma join_cons sep piece pieces :
  pieces ≠ [] →
  String.concat sep (piece :: pieces) =
    piece +:+ sep +:+ String.concat sep pieces.
Proof. by destruct pieces. Qed.

Lemma join_split sep s : String.concat (String sep "") (split sep s) = s.
Proof.
  induction s as [|c rest IH]; cbn [split]; [done|].
  pose proof (split_nonempty sep rest) as Hne.
  destruct (Ascii.eqb_spec c sep) as [->|Hc].
  - rewrite join_cons by done.
    by rewrite append_nil_l, append_cons, append_nil_l, IH.
  - destruct (split sep rest) as [|piece pieces]; [done|].
    destruct pieces as [|piece' pieces].
    + cbn in *. by rewrite IH.
    + rewrite join_cons by done. rewrite join_cons in IH by done.
      by rewrite append_cons, IH.
Qed.

Lemma split_app_no_sep sep piece s :
  count_char sep piece = O →
  split sep (piece +:+ String sep s) = piece :: split sep s.
Proof.
  induction piece as [|c piece IH]; cbn [count_char]; intros Hc.
  - rewrite append_nil_l. cbn. by rewrite Ascii.eqb_refl.
  - rewrite append_cons. cbn [split].
    destruct (Ascii.eqb c sep); [done|]. by rewrite IH.
Qed.

Lemma split_no_sep sep piece :
  count_char sep piece = O → split sep piece = [piece].
Proof.
  induction piece as [|c piece IH]; cbn; intros Hc; [done|].
  destruct (Ascii.eqb c sep); [done|]. by rewrite IH.
Qed.

(** X1. Whatever [strip] does, the hosts of line 74 are the lines of the
    stripped text as they stand: one more host than the text has
    newlines (so never none), no host contains a newline, and the hosts
    joined by newlines are the stripped text again, so that inner lines
    are not trimmed and a blank inner line is an empty host. *)
Theorem hosts_of_are_the_lines (strip : string → string)
    (host_input : string) :
  let hosts := hosts_of strip host_input in
  length hosts = S (count_char newline (strip host_input)) ∧
  Forall (λ host, count_char newline host = O) hosts ∧
  String.concat (String newline "") hosts = strip host_input.
Proof.
  cbn zeta. unfold hosts_of.
  split; [apply split_length|].
  split; [apply split_pieces_no_sep | apply join_split].
Qed.

(** Splitting undoes joining: a list of at least one piece, none of
    which contains the separator, is what [split] returns on the pieces
    joined by the separator. *)
Lemma split_of_joined (sep : ascii) (pieces : list string) :
  pieces ≠ [] →
  Forall (λ piece, count_char sep piece = O) pieces →
  split sep (String.concat (String sep "") pieces) = pieces.
Proof.
  intros Hne Hall. induction Hall as [|piece pieces Hpiece Hall IH]; [done|].
  destruct pieces as [|piece' pieces].
  - cbn. by apply split_no_sep.
  - rewrite join_cons, append_cons, append_nil_l by done.
    rewrite split_app_no_sep by done. by rewrite IH.
Qed.

(** X2. Host names typed one per line are the hosts that are checked:
    for at least one name, none containing a newline, written on
    consecutive lines of a text that [strip] leaves as it is, line 74
    gives back exactly these names, in order, an empty line as the
    empty name. *)
Theorem hosts_of_typed_lines (strip : string → string)
    (names : list string) :
  names ≠ [] →
  Forall (λ name, count_char newline name = O) names →
  strip (String.concat (String newline "") names) =
    String.concat (String newline "") names →
  hosts_of strip (String.concat (String newline "") names) = names.
Proof.
  intros Hne Hall Hstrip. unfold hosts_of. rewrite Hstrip.
  by apply split_of_joined.
Qed.

Lemma hosts_of_typed_lines_witness :
  hosts_of ascii_strip
    (String.concat (String newline "") ["a.test"; ""; " b.test"]) =
  ["a.test"; ""; " b.test"].
Proof.
  apply (hosts_of_typed_lines ascii_strip ["a.test"; ""; " b.test"]).
  - discriminate.
  - repeat constructor.
  - vm_compute. reflexivity.
Defined.

(** ** The alerts *)

Lemma alert_of_fetched host d issuer_name :
  ∃ a, alert_of (Row host (Some d) (status_of d) issuer_name) = Return a ∧
       announces (Row host (Some d) (status_of d) issuer_name) a.
Proof.
  unfold alert_of, announces, status_of; cbn.
  destruct (Z.ltb_spec d 0) as [Hneg|Hpos]; cbn.
  - eexists. split; [reflexivity|]. by rewrite Z.abs_neq by lia.
  - destruct (d <? 30); cbn; eexists; split; reflexivity.
Qed.

Lemma alert_of_failed host msg :
  alert_of (Row host None ("Error: " +:+ msg) "Unknown Issuer") =
  Return (st_success ("✅ " +:+ host +:+
            " is valid for None more days. Issuer: Unknown Issuer")).
Proof.
  unfold alert_of; cbn [r_status r_host r_days_left r_issuer_name].
  rewrite !append_cons, append_nil_l. reflexivity.
Qed.

(** The loop of alerts on rows that the loop body of [check_expiry] made:
    it runs to its end, with one alert per row. *)
Lemma show_alerts_of_rows {rt : Runtime} hosts rows :
  Forall2 (λ host r, ∃ wa wb, check_host [] host wa = (Return [r], wb))
          hosts rows →
  ∃ shown, show_alerts rows = (shown, None) ∧ Forall2 announces rows shown.
Proof.
  induction 1 as [|host r hosts rows (wa & wb & Hr) _ (shown & Hshown & IH)].
  - exists []. split; [done | constructor].
  - destruct (check_host_row_cases _ _ _ _ Hr)
      as [(expiry & issuer_name & wc & now & _ & _ & ->) | (e & _ & ->)].
    + destruct (alert_of_fetched host (days (sub expiry now)) issuer_name)
        as (a & Ha & Hann).
      exists (a :: shown). cbn [show_alerts]. rewrite Ha, Hshown.
      split; [done | by constructor].
    + eexists (_ :: shown). cbn [show_alerts].
      rewrite alert_of_failed, Hshown. split; [done|].
      constructor; [|done]. reflexivity.
Qed.

(** X3. On the rows of [check_expiry] the loop of alerts never raises
    ([abs] is only applied to a day count that is there) and shows
    exactly one alert per row, in order: an error box with the number of
    days since expiry for a negative day count, a warning for 0 to 29, a
    success box for 30 and more, and a success box that reads
    [is valid for None more days] for a host whose check failed. *)
Theorem alerts_follow_rows {rt : Runtime} (hosts : list string) (w : World) :
  ∃ rows w1 shown,
    check_expiry hosts w = (Return rows, w1) ∧
    show_alerts rows = (shown, None) ∧
    Forall2 announces rows shown.
Proof.
  destruct (check_expiry_returns hosts w) as (rows & w1 & Hrun).
  destruct (show_alerts_of_rows hosts rows (check_expiry_rows _ _ _ _ Hrun))
    as (shown & Hshown & Hall).
  by exists rows, w1, shown.
Qed.

(** X4. A host for which [get_cert_info] raised is announced in a
    success box, as valid for [None] more days; the text of the
    exception is in the row only, not in the alert. *)
Theorem failed_host_is_announced_as_valid {rt : Runtime}
    (host : string) (w : World) (e : exception) (w1 : World) :
  get_cert_info host w = (Raise e, w1) →
  ∃ rows,
    check_expiry [host] w = (Return rows, w1) ∧
    show_alerts rows =
      ([st_success ("✅ " +:+ host +:+
          " is valid for None more days. Issuer: Unknown Issuer")], None).
Proof.
  intros Hraise. eexists. split.
  - apply check_expiry_single, (check_host_raised [] _ _ _ _ Hraise).
  - cbn [show_alerts]. by rewrite alert_of_failed.
Qed.

Lemma failed_host_is_announced_as_valid_witness :
  ∃ rows,
    check_expiry (rt := demo_runtime) ["unreachable.test"] 0%nat =
      (Return rows, 0%nat) ∧
    show_alerts rows =
      ([st_success ("✅ " +:+ "unreachable.test" +:+
          " is valid for None more days. Issuer: Unknown Issuer")], None).
Proof.
  apply (failed_host_is_announced_as_valid (rt := demo_runtime)
           "unreachable.test" 0%nat ConnectionRefusedError 0%nat).
  vm_compute. reflexivity.
Defined.

(** X5. Pressing the button always ends with a table and the alerts,
    whatever the text and the network: the rows are those of one call of
    [check_expiry] on the hosts of the text, one row and one alert per
    line of the stripped text. *)
Theorem on_click_returns {rt : Runtime} (strip : string → string)
    (host_input : string) (w : World) :
  ∃ rows shown w1,
    on_click strip host_input w = (Return (rows, (shown, None)), w1) ∧
    check_expiry (hosts_of strip host_input) w = (Return rows, w1) ∧
    r_host <$> rows = hosts_of strip host_input ∧
    length shown = length rows ∧
    length rows = S (count_char newline (strip host_input)).
Proof.
  destruct (check_expiry_returns (hosts_of strip host_input) w)
    as (rows & w1 & Hrun).
  pose proof (check_expiry_rows _ _ _ _ Hrun) as Hrows.
  destruct (show_alerts_of_rows _ _ Hrows) as (shown & Hshown & Hall).
  exists rows, shown, w1.
  split.
  { unfold on_click, mbind, Py_bind, py_bind.
    rewrite main_results_spec, Hrun. cbn -[show_alerts]. by rewrite Hshown. }
  split; [exact Hrun|].
  assert (r_host <$> rows = hosts_of strip host_input) as Hhosts.
  { clear Hrun Hshown Hall.
    induction Hrows as [|host r hosts rows (wa & wb & Hr) _ IH]; [done|].
    cbn. by rewrite (check_host_keeps_host _ _ _ _ Hr), IH. }
  split; [exact Hhosts|].
  split; [symmetry; by eapply Forall2_length|].
  rewrite <- (length_fmap r_host), Hhosts. apply split_length.
Qed.

(** X6. A text that [strip] leaves empty (a blank text area) is not an
    empty list of hosts: the empty host name is checked, and the page
    shows one row and one alert for it. *)
Theorem blank_input_checks_empty_host {rt : Runtime}
    (strip : string → string) (host_input : string) (w : World) :
  strip host_input = "" →
  hosts_of strip host_input = [""] ∧
  ∃ r a w1,
    check_expiry [""] w = (Return [r], w1) ∧
    r_host r = "" ∧
    on_click strip host_input w = (Return ([r], ([a], None)), w1).
Proof.
  intros Hblank.
  assert (hosts_of strip host_input = [""]) as Hhosts
    by (unfold hosts_of; by rewrite Hblank).
  split; [exact Hhosts|].
  destruct (check_host_appends [] "" w) as (r & w1 & Hr & _).
  pose proof (check_expiry_single _ _ _ _ Hr) as Hrun.
  destruct (show_alerts_of_rows [""] [r]) as (shown & Hshown & Hall).
  { constructor; [by exists w, w1 | constructor]. }
  inversion Hall as [|? a ? shown' _ Hnil]; subst. inversion Hnil; subst.
  exists r, a, w1. split; [exact Hrun|].
  split; [by apply (check_host_keeps_host _ _ _ _ Hr)|].
  unfold on_click, mbind, Py_bind, py_bind.
  rewrite main_results_spec, Hhosts, Hrun. cbn -[show_alerts].
  by rewrite Hshown.
Qed.

Lemma blank_input_checks_empty_host_witness :
  hosts_of ascii_strip "   " = [""] ∧
  ∃ r a w1,
    check_expiry (rt := demo_runtime) [""] 0%nat = (Return [r], w1) ∧
    r_host r = "" ∧
    on_click (rt := demo_runtime) ascii_strip "   " 0%nat =
      (Return ([r], ([a], None)), w1).
Proof.
  apply (blank_input_checks_empty_host (rt := demo_runtime)
           ascii_strip "   " 0%nat).
  reflexivity.
Defined.

(** ** More on reading the certificate *)

Section MoreFetch.

Context {rt : Runtime}.

(** Once the certificate is in hand, the rest of [get_cert_info] is a
    chain of four steps that do not touch the world. *)
Lemma get_cert_info_peer_cert host w c w1 :
  peer_cert host w c w1 →
  get_cert_info host w =
    (match getitem (cert_notAfter c) "notAfter" with
     | Raise e => Raise e
     | Return expiry_str =>
         match strptime expiry_str "%b %d %H:%M:%S %Y %Z" with
         | Raise e => Raise e
         | Return expiry =>
             match getitem (cert_issuer c) "issuer" with
             | Raise e => Raise e
             | Return name =>
                 match first_items name with
                 | Raise e => Raise e
                 | Return pairs =>
                     Return (expiry,
                             dict_get (dict pairs) "organizationName"
                                      "Unknown Issuer")
                 end
             end
         end
     end, w1).
Proof.
  intros (context & wa & sock & wb & ssock & wc & wd &
          Hctx & Hconn & Hwrap & Hcert & ->).
  unfold get_cert_info, with_as, mbind, Py_bind, py_bind, lift_result.
  rewrite Hctx, Hconn, Hwrap, Hcert.
  destruct (getitem (cert_notAfter c) "notAfter"); [|done].
  destruct (strptime _ _); [|done].
  destruct (getitem (cert_issuer c) "issuer"); [|done].
  by destruct (first_items _).
Qed.

End MoreFetch.

Lemma first_items_app (name1 name2 : list rdn) pairs1 pairs2 :
  first_items name1 = Return pairs1 →
  first_items name2 = Return pairs2 →
  first_items (name1 ++ name2) = Return (pairs1 ++ pairs2).
Proof.
  revert pairs1. induction name1 as [|x name1 IH]; intros pairs1 H1 H2.
  - by injection H1 as <-.
  - destruct x as [|kv more]; [discriminate|]. cbn in *.
    destruct (first_items name1) as [kvs|e]; [|discriminate].
    injection H1 as <-. by rewrite (IH kvs eq_refl H2).
Qed.

Lemma first_items_nonempty (name : list rdn) :
  Forall (λ x, x ≠ []) name → ∃ pairs, first_items name = Return pairs.
Proof.
  induction 1 as [|x name Hx _ (pairs & IH)]; [by exists []|].
  destruct x as [|kv more]; [done|]. cbn. rewrite IH. by eexists.
Qed.

Lemma first_items_first_key_not key (name : list rdn) :
  Forall (first_key_is_not key) name →
  ∃ pairs, first_items name = Return pairs ∧ key ∉ pairs.*1.
Proof.
  induction 1 as [|x name (kv & more & -> & Hkv) _ (pairs & IH & Hnot)].
  - exists []. split; [done | apply not_elem_of_nil].
  - exists (kv :: pairs). cbn. rewrite IH. split; [done|].
    rewrite not_elem_of_cons. split; [congruence | done].
Qed.

(** X7. [get_cert_info] closes what it opened on every way out: when the
    connection fails nothing is closed; when it succeeds the socket is
    closed last, whether the function returns or raises; when the
    handshake succeeded too, the TLS socket is closed right after
    [getpeercert], before the plain socket, and nothing else touches the
    world. *)
Theorem get_cert_info_closes_sockets {rt : Runtime}
    (host : string) (w : World) (context : SSLContext) (w1 : World) :
  create_default_context w = (Return context, w1) →
  match create_connection (host, 443) w1 with
  | (Raise e, w2) => get_cert_info host w = (Raise e, w2)
  | (Return sock, w2) =>
      ∃ r w3,
        get_cert_info host w = (r, socket_exit sock w3) ∧
        match wrap_socket context sock host w2 with
        | (Raise e, w') => r = Raise e ∧ w3 = w'
        | (Return ssock, w') =>
            w3 = sslsocket_exit ssock (getpeercert ssock w').2
        end
  end.
Proof.
  intros Hctx.
  unfold get_cert_info, with_as, mbind, Py_bind, py_bind, lift_result.
  rewrite Hctx.
  destruct (create_connection (host, 443) w1) as [[sock|e] w2]; [|done].
  destruct (wrap_socket context sock host w2) as [[ssock|e] w']; cbn.
  - destruct (getpeercert ssock w') as [[c|e] w4]; cbn; [|by eexists _, _].
    destruct (getitem (cert_notAfter c) "notAfter"); [|by eexists _, _].
    destruct (strptime _ _); [|by eexists _, _].
    destruct (getitem (cert_issuer c) "issuer"); [|by eexists _, _].
    destruct (first_items _); by eexists _, _.
  - by eexists _, _.
Qed.

Lemma get_cert_info_closes_sockets_witness :
  match create_connection (Runtime := demo_runtime)
          ("self-signed.test", 443) 0%nat with
  | (Raise e, w2) =>
      get_cert_info (rt := demo_runtime) "self-signed.test" 0%nat =
        (Raise e, w2)
  | (Return sock, w2) =>
      ∃ r w3,
        get_cert_info (rt := demo_runtime) "self-signed.test" 0%nat =
          (r, socket_exit (Runtime := demo_runtime) sock w3) ∧
        match wrap_socket (Runtime := demo_runtime) ()
                sock "self-signed.test" w2 with
        | (Raise e, w') => r = Raise e ∧ w3 = w'
        | (Return ssock, w') =>
            w3 = sslsocket_exit (Runtime := demo_runtime) ssock
                   (getpeercert (Runtime := demo_runtime) ssock w').2
        end
  end.
Proof.
  apply (get_cert_info_closes_sockets (rt := demo_runtime)
           "self-signed.test" 0%nat () 0%nat).
  reflexivity.
Defined.

(** X8. A certificate dictionary without [notAfter] gives the row with
    status [Error: 'notAfter'], whatever else it holds; one with a date
    that parses and without [issuer] gives [Error: 'issuer']. In both
    cases the clock is not read. *)
Theorem missing_certificate_keys {rt : Runtime}
    (host : string) (w : World) (c : cert) (w1 : World) :
  peer_cert host w c w1 →
  (cert_notAfter c = None →
   check_expiry [host] w =
     (Return [Row host None "Error: 'notAfter'" "Unknown Issuer"], w1)) ∧
  (∀ expiry_str expiry,
     cert_notAfter c = Some expiry_str →
     strptime expiry_str "%b %d %H:%M:%S %Y %Z" = Return expiry →
     cert_issuer c = None →
     check_expiry [host] w =
       (Return [Row host None "Error: 'issuer'" "Unknown Issuer"], w1)).
Proof.
  intros Hpeer. pose proof (get_cert_info_peer_cert _ _ _ _ Hpeer) as Hget.
  split.
  - intros Hnone. rewrite Hnone in Hget.
    apply check_expiry_single, (check_host_raised [] _ _ _ _ Hget).
  - intros expiry_str expiry Hsome Hparse Hnone.
    rewrite Hsome in Hget; cbn in Hget. rewrite Hparse, Hnone in Hget.
    apply check_expiry_single, (check_host_raised [] _ _ _ _ Hget).
Qed.

Lemma missing_certificate_keys_witness :
  (cert_notAfter (mk_cert None None) = None →
   check_expiry (rt := bare_runtime) ["bare.test"] 0%nat =
     (Return [Row "bare.test" None "Error: 'notAfter'" "Unknown Issuer"],
      0%nat)) ∧
  (∀ expiry_str expiry,
     cert_notAfter (mk_cert None None) = Some expiry_str →
     strptime (Runtime := bare_runtime) expiry_str "%b %d %H:%M:%S %Y %Z" =
       Return expiry →
     cert_issuer (mk_cert None None) = None →
     check_expiry (rt := bare_runtime) ["bare.test"] 0%nat =
       (Return [Row "bare.test" None "Error: 'issuer'" "Unknown Issuer"],
        0%nat)).
Proof.
  apply (missing_certificate_keys (rt := bare_runtime)
           "bare.test" 0%nat (mk_cert None None) 0%nat).
  exists (), 0%nat, "bare.test", 0%nat, (mk_cert None None), 0%nat, 0%nat.
  repeat split.
Defined.

(** X9. The issuer that [get_cert_info] returns is the value of the last
    RDN of the issuer name whose first pair is [organizationName]: pairs
    after the first of an RDN are not looked at, and of two organisations
    the later one is reported. *)
Theorem issuer_is_last_leading_organization {rt : Runtime}
    (host : string) (w : World) (c : cert) (w1 : World)
    (expiry_str : string) (expiry : datetime)
    (name1 : list rdn) (v : string) (more : rdn) (name2 : list rdn) :
  peer_cert host w c w1 →
  cert_notAfter c = Some expiry_str →
  strptime expiry_str "%b %d %H:%M:%S %Y %Z" = Return expiry →
  cert_issuer c =
    Some (name1 ++ (("organizationName", v) :: more) :: name2) →
  Forall (λ x, x ≠ []) name1 →
  Forall (first_key_is_not "organizationName") name2 →
  get_cert_info host w = (Return (expiry, v), w1).
Proof.
  intros Hpeer Hsome Hparse Hissuer Hname1 Hname2.
  rewrite (get_cert_info_peer_cert _ _ _ _ Hpeer), Hsome; cbn.
  rewrite Hparse, Hissuer; cbn.
  destruct (first_items_nonempty _ Hname1) as (pairs1 & H1).
  destruct (first_items_first_key_not _ _ Hname2) as (pairs2 & H2 & Hnot).
  rewrite (first_items_app name1 _ pairs1
             (("organizationName", v) :: pairs2) H1)
    by (cbn; by rewrite H2).
  unfold dict_get. by rewrite dict_lookup_last.
Qed.

Lemma issuer_is_last_leading_organization_witness :
  get_cert_info (rt := demo_runtime) "valid-example.test" 0%nat =
    (Return (mk_datetime 2027 2 9 12 0 0 0, "ExampleCA"), 0%nat).
Proof.
  apply (issuer_is_last_leading_organization (rt := demo_runtime)
           "valid-example.test" 0%nat
           (mk_cert (Some "Feb  9 12:00:00 2027 GMT") (Some ExampleCA))
           0%nat "Feb  9 12:00:00 2027 GMT" (mk_datetime 2027 2 9 12 0 0 0)
           [[("countryName", "US")]] "ExampleCA" []
           [[("commonName", "Example Root")]]).
  - exists (), 0%nat, "valid-example.test", 0%nat,
           (mk_cert (Some "Feb  9 12:00:00 2027 GMT") (Some ExampleCA)),
           0%nat, 0%nat.
    repeat split.
  - reflexivity.
  - reflexivity.
  - reflexivity.
  - repeat constructor. discriminate.
  - repeat constructor.
    exists ("commonName", "Example Root"), []. split; [done | discriminate].
Defined.

(** X10. When no RDN of the issuer name has [organizationName] as its
    first pair, [get_cert_info] returns the label [Unknown Issuer], also
    when the attribute stands further back in an RDN. *)
Theorem issuer_unknown_without_leading_organization {rt : Runtime}
    (host : string) (w : World) (c : cert) (w1 : World)
    (expiry_str : string) (expiry : datetime) (name : list rdn) :
  peer_cert host w c w1 →
  cert_notAfter c = Some expiry_str →
  strptime expiry_str "%b %d %H:%M:%S %Y %Z" = Return expiry →
  cert_issuer c = Some name →
  Forall (first_key_is_not "organizationName") name →
  get_cert_info host w = (Return (expiry, "Unknown Issuer"), w1).
Proof.
  intros Hpeer Hsome Hparse Hissuer Hname.
  rewrite (get_cert_info_peer_cert _ _ _ _ Hpeer), Hsome; cbn.
  rewrite Hparse, Hissuer; cbn.
  destruct (first_items_first_key_not _ _ Hname) as (pairs & H & Hnot).
  rewrite H. unfold dict_get.
  by rewrite (proj2 (dict_lookup_None pairs "organizationName") Hnot).
Qed.

Lemma issuer_unknown_without_leading_organization_witness :
  get_cert_info (rt := demo_runtime) "no-org.test" 0%nat =
    (Return (mk_datetime 2027 2 9 12 0 0 0, "Unknown Issuer"), 0%nat).
Proof.
  apply (issuer_unknown_without_leading_organization (rt := demo_runtime)
           "no-org.test" 0%nat
           (mk_cert (Some "Feb  9 12:00:00 2027 GMT") (Some NoOrgCA))
           0%nat "Feb  9 12:00:00 2027 GMT" (mk_datetime 2027 2 9 12 0 0 0)
           NoOrgCA).
  - exists (), 0%nat, "no-org.test", 0%nat,
           (mk_cert (Some "Feb  9 12:00:00 2027 GMT") (Some NoOrgCA)),
           0%nat, 0%nat.
    repeat split.
  - reflexivity.
  - reflexivity.
  - reflexivity.
  - repeat constructor.
    + exists ("countryName", "US"), []. split; [done | discriminate].
    + exists ("commonName", "Example Root"), [].
      split; [done | discriminate].
Defined.

(** ** The clock and the day count *)

(** On the test double [get_cert_info] leaves the count of clock
    readings as it found it. *)
Lemma mock_fetch_keeps_world net parse clock host (w : nat) :
  (get_cert_info (rt := mock_runtime net parse clock) host w).2 = w.
Proof.
  unfold get_cert_info, with_as, mbind, Py_bind, py_bind, lift_result; cbn.
  destruct (net host) as [e|e|c] eqn:Hnet; cbn; rewrite ?Hnet; cbn;
    try done.
  destruct (cert_notAfter c); cbn; try done.
  destruct (parse _ _); cbn; try done.
  destruct (cert_issuer c); cbn; try done.
  destruct (first_items _); done.
Qed.

Lemma count_fetched_cons r rows :
  count_fetched (r :: rows) =
    ((if r_days_left r is Some _ then 1 else 0) + count_fetched rows)%nat.
Proof.
  unfold count_fetched. rewrite filter_cons.
  destruct (r_days_left r) as [d|]; case_decide as Hsome; cbn; try done.
  destruct Hsome. by eexists.
Qed.

(** X11. [datetime.now()] is read once for every host whose certificate
    was fetched, after the fetch, and not at all for a host that failed:
    on a runtime that counts the readings, a call of [check_expiry] adds
    to the count the number of rows that carry a day count. *)
Theorem clock_read_once_per_fetched_host
    (net : string → peer) (parse : string → string → result datetime)
    (clock : nat → datetime) (hosts : list string) (w : nat) :
  ∃ rows,
    check_expiry (rt := mock_runtime net parse clock) hosts w =
      (Return rows, (w + count_fetched rows)%nat).
Proof.
  revert w. induction hosts as [|host rest IH]; intros w.
  - exists []. rewrite check_expiry_nil. unfold count_fetched. cbn.
    by rewrite Nat.add_0_r.
  - pose proof (mock_fetch_keeps_world net parse clock host w) as Hw.
    destruct (get_cert_info (rt := mock_runtime net parse clock) host w)
      as [[[expiry issuer_name]|e] w1] eqn:Hfetch; cbn in Hw; subst w1.
    + destruct (IH (S w)) as (rows & Hrows).
      pose proof (check_host_fetched (rt := mock_runtime net parse clock)
                    [] host w expiry issuer_name w (clock w) (S w)
                    Hfetch eq_refl) as Hr.
      exists (Row host (Some (days (sub expiry (clock w))))
                  (status_of (days (sub expiry (clock w)))) issuer_name
              :: rows).
      rewrite (check_expiry_cons (rt := mock_runtime net parse clock)
                 _ _ _ _ _ _ _ Hr Hrows).
      rewrite count_fetched_cons. cbn [r_days_left]. f_equal. lia.
    + destruct (IH w) as (rows & Hrows).
      pose proof (check_host_raised (rt := mock_runtime net parse clock)
                    [] host w e w Hfetch) as Hr.
      exists (Row host None ("Error: " +:+ str e) "Unknown Issuer" :: rows).
      rewrite (check_expiry_cons (rt := mock_runtime net parse clock)
                 _ _ _ _ _ _ _ Hr Hrows).
      by rewrite count_fetched_cons.
Qed.

(** X12. The day count never grows as time passes and never shrinks
    with a later expiry: when the distance from the clock reading to the
    expiry is no larger, the day count is no larger. *)
Theorem days_left_monotone (expiry1 now1 expiry2 now2 : datetime) :
  instant expiry1 - instant now1 ≤ instant expiry2 - instant now2 →
  days (sub expiry1 now1) ≤ days (sub expiry2 now2).
Proof.
  intros Hle. rewrite !days_sub_floor.
  apply Z.div_le_mono; [unfold us_per_day; lia | exact Hle].
Qed.

Lemma days_left_monotone_witness :
  days (sub (mk_datetime 2026 2 4 12 0 0 0) (mk_datetime 2026 1 5 12 0 1 0))
  ≤ days (sub (mk_datetime 2026 2 4 12 0 0 0) demo_noon).
Proof.
  apply (days_left_monotone
           (mk_datetime 2026 2 4 12 0 0 0) (mk_datetime 2026 1 5 12 0 1 0)
           (mk_datetime 2026 2 4 12 0 0 0) demo_noon).
  vm_compute. discriminate.
Defined.



(** X14. On every runtime, checking [xs ++ ys] is checking [xs] and then
    [ys] from the world that [xs] left: the rows are the rows of the two
    runs one after the other, and the world at the end is the same. *)
Theorem check_expiry_threads_world {rt : Runtime}
    (xs ys : list string) (w : World) :
  ∃ rows_x w1 rows_y w2,
    check_expiry xs w = (Return rows_x, w1) ∧
    check_expiry ys w1 = (Return rows_y, w2) ∧
    check_expiry (xs ++ ys) w = (Return (rows_x ++ rows_y), w2).
Proof.
  destruct (check_expiry_returns xs w) as (rows_x & w1 & Hx).
  destruct (check_expiry_returns ys w1) as (rows_y & w2 & Hy).
  exists rows_x, w1, rows_y, w2.
  split; [exact Hx|]. split; [exact Hy|].
  exact (check_expiry_app _ _ _ _ _ _ _ Hx Hy).
Qed.
